(** * cryptotranny: encrypted point-to-point channels over a framed TCP stream

    A shallow embedding of [src/index.js].  The file holds two listings of
    the module; the first one (lines 1-183) is the one embedded in full, the
    receive handler of the second one (lines 251-264) is embedded in
    [Listing2].

    What the module takes from its dependencies is modelled as follows.
    - [Buffer] contents are lists of bytes; JavaScript strings are Rocq
      strings.  Every string the module builds is ASCII, where the UTF-8
      conversions [data.toString ()] and [Buffer.from (str)] are the
      identity, and on ASCII text the models below are exact.  A byte
      above 0x7f stands for the non-ASCII character its decoding yields,
      which is no JSON syntax; [Base64.decode] takes it for no digit, where
      [Buffer] looks at the low byte of the character.
    - [Base64] is the base64 codec of [Buffer], [Json] is [JSON.stringify]
      on the envelope object and [JSON.parse], [Lpstream] is the varint
      length-prefix framing of [length-prefixed-stream] on frames of the
      lengths a [Buffer] can have.
    - [tweetnacl] and the remaining corner of [Buffer.from] are the fields
      of the class [Externals]; what the proofs need from them is the class
      [ExternalsOk].
    - [events.EventEmitter] and [net.Socket] are modelled by explicit
      listener lists and a small socket record. *)

From Stdlib Require Import List String Ascii NArith ZArith Lia Bool Arith.
From Stdlib.Strings Require Import Byte.
Import ListNotations.

Set Warnings "-register-all".

Local Open Scope string_scope.
Local Open Scope list_scope.

(** ** Bytes and text *)

Definition bytes := list byte.

Definition byte_of_N (n : N) : byte := byte_of_ascii (ascii_of_N n).

Fixpoint bytes_eqb (a b : bytes) : bool :=
  match a, b with
  | [], [] => true
  | x :: a', y :: b' => Byte.eqb x y && bytes_eqb a' b'
  | _, _ => false
  end.

(** [buf.toString ()] and [Buffer.from (str)] *)
Definition Buffer_toString (b : bytes) : string := string_of_list_byte b.
Definition Buffer_from_string (s : string) : bytes := list_byte_of_string s.

(** ** Thrown values and results of calls that may throw *)

Record js_error := mkError { name : string; message : string }.

Definition SyntaxError (msg : string) := mkError "SyntaxError" msg.
Definition TypeError (msg : string) := mkError "TypeError" msg.
Definition Error (msg : string) := mkError "Error" msg.

Inductive result (A : Type) : Type :=
| Ok (a : A)
| Throw (e : js_error).
Arguments Ok {A} a.
Arguments Throw {A} e.

(** ** [Buffer]'s base64 codec *)

Module Base64.

(** The digit of a six-bit value, in the alphabet A-Z a-z 0-9 + / *)
Definition digit (v : N) : ascii :=
  ascii_of_N
    (if v <? 26 then v + 65
     else if v <? 52 then v + 71
     else if v <? 62 then v - 4
     else if v =? 62 then 43
     else 47)%N.

(** The value of a digit; the decoder also accepts the URL-safe digits
    [-] and [_]. *)
Definition unbase64 (c : ascii) : option N :=
  let n := N_of_ascii c in
  (if (65 <=? n) && (n <=? 90) then Some (n - 65)
   else if (97 <=? n) && (n <=? 122) then Some (n - 71)
   else if (48 <=? n) && (n <=? 57) then Some (n + 4)
   else if (n =? 43) || (n =? 45) then Some 62
   else if (n =? 47) || (n =? 95) then Some 63
   else None)%N.

Definition pad1 : string := "=".
Definition pad2 : string := "==".

(** [buf.toString ('base64')] *)
Fixpoint encode (b : bytes) : string :=
  match b with
  | [] => EmptyString
  | [x] =>
      let x := Byte.to_N x in
      String (digit (x / 4)) (String (digit (x mod 4 * 16)) pad2)
  | [x; y] =>
      let x := Byte.to_N x in
      let y := Byte.to_N y in
      String (digit (x / 4))
        (String (digit (x mod 4 * 16 + y / 16))
           (String (digit (y mod 16 * 4)) pad1))
  | x :: y :: z :: rest =>
      let x := Byte.to_N x in
      let y := Byte.to_N y in
      let z := Byte.to_N z in
      String (digit (x / 4))
        (String (digit (x mod 4 * 16 + y / 16))
           (String (digit (y mod 16 * 4 + z / 64))
              (String (digit (z mod 64)) (encode rest))))
  end%N.

(** The six-bit values of the digits of [s] up to its first [=]; any
    other character is skipped. *)
Fixpoint sextets (s : string) : list N :=
  match s with
  | EmptyString => []
  | String c s' =>
      if (c =? "=")%char then []
      else match unbase64 c with
           | Some v => v :: sextets s'
           | None => sextets s'
           end
  end.

Fixpoint unpack (v : list N) : bytes :=
  match v with
  | a :: b :: c :: d :: rest =>
      byte_of_N (a * 4 + b / 16)
        :: byte_of_N (b mod 16 * 16 + c / 4)
        :: byte_of_N (c mod 4 * 64 + d)
        :: unpack rest
  | [a; b; c] =>
      [byte_of_N (a * 4 + b / 16); byte_of_N (b mod 16 * 16 + c / 4)]
  | [a; b] => [byte_of_N (a * 4 + b / 16)]
  | _ => []
  end%N.

(** [Buffer.from (s, 'base64')] for a string [s]: never throws.  Exact on
    ASCII text, which is what [send] writes; of a character above 0x7f
    [Buffer] reads the low byte, where this skips the character. *)
Definition decode (s : string) : bytes := unpack (sextets s).

End Base64.

(** ** [JSON.stringify] and [JSON.parse] *)

Module Json.

Inductive json : Type :=
| JNull
| JBool (b : bool)
| JNumber (lexeme : string)
| JString (s : string)
| JArray (elements : list json)
| JObject (members : list (string * json)).

Definition dquote : ascii := "034".
Definition backslash : ascii := "\".

(** *** Writing *)

Definition hex (v : N) : ascii :=
  ascii_of_N (if v <? 10 then v + 48 else v + 87)%N.

Definition quote_char (c : ascii) : string :=
  let n := N_of_ascii c in
  if (c =? dquote)%char then String backslash (String dquote EmptyString)
  else if (c =? backslash)%char then String backslash (String backslash EmptyString)
  else if (n =? 8)%N then "\b"
  else if (n =? 9)%N then "\t"
  else if (n =? 10)%N then "\n"
  else if (n =? 12)%N then "\f"
  else if (n =? 13)%N then "\r"
  else if (n <? 32)%N then
    String backslash (String "u" (String "0" (String "0"
      (String (hex (n / 16)) (String (hex (n mod 16)) EmptyString)))))
  else String c EmptyString.

Fixpoint quote_chars (s : string) : string :=
  match s with
  | EmptyString => String dquote EmptyString
  | String c s' => append (quote_char c) (quote_chars s')
  end.

Definition quote (s : string) : string := String dquote (quote_chars s).

(** [JSON.stringify (v)], without indentation *)
Fixpoint stringify (v : json) : string :=
  match v with
  | JNull => "null"
  | JBool true => "true"
  | JBool false => "false"
  | JNumber lexeme => lexeme
  | JString s => quote s
  | JArray elements =>
      String "["
        ((fix items (l : list json) : string :=
            match l with
            | [] => "]"
            | [x] => append (stringify x) "]"
            | x :: l' => append (stringify x) (String "," (items l'))
            end) elements)
  | JObject members =>
      String "{"
        ((fix items (l : list (string * json)) : string :=
            match l with
            | [] => "}"
            | [(k, x)] => append (quote k) (String ":" (append (stringify x) "}"))
            | (k, x) :: l' =>
                append (quote k)
                  (String ":" (append (stringify x) (String "," (items l'))))
            end) members)
  end.

(** *** Reading *)

Definition is_ws (c : ascii) : bool :=
  let n := N_of_ascii c in
  ((n =? 32) || (n =? 9) || (n =? 10) || (n =? 13))%N.

Fixpoint skip_ws (s : string) : string :=
  match s with
  | String c s' => if is_ws c then skip_ws s' else s
  | EmptyString => s
  end.

Definition is_digit (c : ascii) : bool :=
  let n := N_of_ascii c in ((48 <=? n) && (n <=? 57))%N.

Definition hex_value (c : ascii) : option N :=
  let n := N_of_ascii c in
  (if (48 <=? n) && (n <=? 57) then Some (n - 48)
   else if (97 <=? n) && (n <=? 102) then Some (n - 87)
   else if (65 <=? n) && (n <=? 70) then Some (n - 55)
   else None)%N.

(** The character of [\uXXXX]; every code unit above 0xff is one and the
    same non-ASCII character here. *)
Definition code_unit (a b c d : N) : ascii :=
  let v := (((a * 16 + b) * 16 + c) * 16 + d)%N in
  if (v <? 256)%N then ascii_of_N v else ascii_of_N 255.

Definition escape (e : ascii) : option ascii :=
  if (e =? dquote)%char then Some dquote
  else if (e =? backslash)%char then Some backslash
  else if (e =? "/")%char then Some "/"%char
  else if (e =? "b")%char then Some "008"%char
  else if (e =? "f")%char then Some "012"%char
  else if (e =? "n")%char then Some "010"%char
  else if (e =? "r")%char then Some "013"%char
  else if (e =? "t")%char then Some "009"%char
  else None.

(** The contents of a string literal whose opening quote has been read,
    and what follows its closing quote *)
Fixpoint string_body (s : string) : option (string * string) :=
  match s with
  | EmptyString => None
  | String c r =>
      if (c =? dquote)%char then Some (EmptyString, r)
      else if (c =? backslash)%char then
        match r with
        | String e r1 =>
            if (e =? "u")%char then
              match r1 with
              | String h1 (String h2 (String h3 (String h4 r5))) =>
                  match hex_value h1, hex_value h2, hex_value h3, hex_value h4 with
                  | Some a, Some b, Some c', Some d =>
                      match string_body r5 with
                      | Some (str, rest) => Some (String (code_unit a b c' d) str, rest)
                      | None => None
                      end
                  | _, _, _, _ => None
                  end
              | _ => None
              end
            else
              match escape e with
              | Some x =>
                  match string_body r1 with
                  | Some (str, rest) => Some (String x str, rest)
                  | None => None
                  end
              | None => None
              end
        | EmptyString => None
        end
      else if (N_of_ascii c <? 32)%N then None
      else
        match string_body r with
        | Some (str, rest) => Some (String c str, rest)
        | None => None
        end
  end.

(** The longest run of decimal digits at the head of [s], and the rest *)
Fixpoint digits (s : string) : string * string :=
  match s with
  | String c r =>
      if is_digit c then let (d, rest) := digits r in (String c d, rest)
      else (EmptyString, s)
  | EmptyString => (EmptyString, s)
  end.

Definition nonempty (s : string) : bool :=
  match s with EmptyString => false | _ => true end.

(** The lexeme of a number at the head of [s], and the rest *)
Definition number (s : string) : option (string * string) :=
  let (sign, s1) :=
    match s with
    | String c r => if (c =? "-")%char then ("-", r) else (EmptyString, s)
    | EmptyString => (EmptyString, s)
    end in
  let int_part :=
    match s1 with
    | String c r =>
        if (c =? "0")%char then Some ("0", r)
        else if is_digit c then Some (digits s1)
        else None
    | EmptyString => None
    end in
  match int_part with
  | None => None
  | Some (i, s2) =>
      let frac_part :=
        match s2 with
        | String c r =>
            if (c =? ".")%char then
              let (d, rest) := digits r in
              if nonempty d then Some (String "." d, rest) else None
            else Some (EmptyString, s2)
        | EmptyString => Some (EmptyString, s2)
        end in
      match frac_part with
      | None => None
      | Some (f, s3) =>
          let exp_part :=
            match s3 with
            | String c r =>
                if ((c =? "e") || (c =? "E"))%char then
                  let (sg, r1) :=
                    match r with
                    | String c1 r' =>
                        if ((c1 =? "+") || (c1 =? "-"))%char
                        then (String c1 EmptyString, r')
                        else (EmptyString, r)
                    | EmptyString => (EmptyString, r)
                    end in
                  let (d, rest) := digits r1 in
                  if nonempty d then Some (String c (append sg d), rest) else None
                else Some (EmptyString, s3)
            | EmptyString => Some (EmptyString, s3)
            end in
          match exp_part with
          | None => None
          | Some (e, s4) => Some (append sign (append i (append f e)), s4)
          end
      end
  end.

(** [s] without its prefix [p], if it starts with [p] *)
Fixpoint strip (p s : string) : option string :=
  match p, s with
  | EmptyString, _ => Some s
  | String a p', String b s' => if (a =? b)%char then strip p' s' else None
  | String _ _, EmptyString => None
  end.

(** One value at the head of [s] (after white space), and the rest.
    [fuel] bounds the number of nested and consecutive values; the length
    of the text is always enough. *)
Fixpoint value (fuel : nat) (s : string) : option (json * string) :=
  match fuel with
  | O => None
  | S fuel =>
      match skip_ws s with
      | EmptyString => None
      | String c r =>
          if (c =? dquote)%char then
            match string_body r with
            | Some (str, rest) => Some (JString str, rest)
            | None => None
            end
          else if (c =? "[")%char then
            match skip_ws r with
            | String c1 r1 =>
                if (c1 =? "]")%char then Some (JArray [], r1)
                else
                  match elements fuel r with
                  | Some (vs, rest) => Some (JArray vs, rest)
                  | None => None
                  end
            | EmptyString => None
            end
          else if (c =? "{")%char then
            match skip_ws r with
            | String c1 r1 =>
                if (c1 =? "}")%char then Some (JObject [], r1)
                else
                  match members fuel r with
                  | Some (ms, rest) => Some (JObject ms, rest)
                  | None => None
                  end
            | EmptyString => None
            end
          else if (c =? "t")%char then
            match strip "true" (String c r) with
            | Some rest => Some (JBool true, rest)
            | None => None
            end
          else if (c =? "f")%char then
            match strip "false" (String c r) with
            | Some rest => Some (JBool false, rest)
            | None => None
            end
          else if (c =? "n")%char then
            match strip "null" (String c r) with
            | Some rest => Some (JNull, rest)
            | None => None
            end
          else
            match number (String c r) with
            | Some (lexeme, rest) => Some (JNumber lexeme, rest)
            | None => None
            end
      end
  end

(** The values of an array after its [[] or a [,], up to its []] *)
with elements (fuel : nat) (s : string) : option (list json * string) :=
  match fuel with
  | O => None
  | S fuel =>
      match value fuel s with
      | Some (v, r) =>
          match skip_ws r with
          | String c r1 =>
              if (c =? ",")%char then
                match elements fuel r1 with
                | Some (vs, rest) => Some (v :: vs, rest)
                | None => None
                end
              else if (c =? "]")%char then Some ([v], r1)
              else None
          | EmptyString => None
          end
      | None => None
      end
  end

(** The members of an object after its [{] or a [,], up to its [}] *)
with members (fuel : nat) (s : string) : option (list (string * json) * string) :=
  match fuel with
  | O => None
  | S fuel =>
      match skip_ws s with
      | String q r =>
          if (q =? dquote)%char then
            match string_body r with
            | Some (k, r1) =>
                match skip_ws r1 with
                | String colon r2 =>
                    if (colon =? ":")%char then
                      match value fuel r2 with
                      | Some (v, r3) =>
                          match skip_ws r3 with
                          | String c r4 =>
                              if (c =? ",")%char then
                                match members fuel r4 with
                                | Some (ms, rest) => Some ((k, v) :: ms, rest)
                                | None => None
                                end
                              else if (c =? "}")%char then Some ([(k, v)], r4)
                              else None
                          | EmptyString => None
                          end
                      | None => None
                      end
                    else None
                | EmptyString => None
                end
            | None => None
            end
          else None
      | EmptyString => None
      end
  end.

(** [JSON.parse (text)]: the value, or a thrown [SyntaxError] *)
Definition parse (text : string) : result json :=
  match value (S (String.length text)) text with
  | Some (v, rest) =>
      match skip_ws rest with
      | EmptyString => Ok v
      | String _ _ => Throw (SyntaxError "Unexpected token in JSON")
      end
  | None => Throw (SyntaxError "Unexpected token in JSON")
  end.

(** *** Property reads on a parsed value *)

(** The member named [k]; of two members with one name the later wins *)
Fixpoint lookup (k : string) (ms : list (string * json)) : option json :=
  match ms with
  | [] => None
  | (k', v) :: ms' =>
      match lookup k ms' with
      | Some v' => Some v'
      | None => if (k' =? k)%string then Some v else None
      end
  end.

(** [v.k] for a key [k] that names no built-in property ([data], [nonce]):
    [None] is [undefined]; reading a property of [null] throws. *)
Definition get (v : json) (k : string) : result (option json) :=
  match v with
  | JNull => Throw (TypeError "Cannot read property of null")
  | JObject ms => Ok (lookup k ms)
  | _ => Ok None
  end.

End Json.

(** ** [length-prefixed-stream] *)

Module Lpstream.

(** The varint of [n]: seven bits a byte, least significant first, the
    high bit set on every byte but the last *)
Fixpoint varint_go (fuel : nat) (n : N) : bytes :=
  match fuel with
  | O => [byte_of_N n]
  | S fuel =>
      if (n <? 128)%N then [byte_of_N n]
      else byte_of_N (n mod 128 + 128) :: varint_go fuel (n / 128)
  end.

Definition varint_encode (n : N) : bytes := varint_go (N.to_nat (N.size n)) n.

(** The value of a varint.  The [varint] package adds it up in a double:
    the two agree below 2^53, far above [max_length] below. *)
Fixpoint varint_decode (p : bytes) : N :=
  match p with
  | [] => 0
  | b :: r => Byte.to_N b mod 128 + 128 * varint_decode r
  end%N.

(** What the encoder pushes for one written frame *)
Definition encode (frame : bytes) : bytes :=
  varint_encode (N.of_nat (List.length frame)) ++ frame.

(** The decoder: the prefix bytes read so far, the payload bytes still
    missing, and the payload bytes read so far *)
Record Decoder := mkDecoder {
  _prefix : bytes;
  _missing : N;
  _message : bytes;
}.

(** [lpstream.decode ()], called without options: no limit is set *)
Definition decode : Decoder := mkDecoder [] 0 [].

(** The greatest length a [Buffer] can have on every platform, the
    smallest [buffer.constants.MAX_LENGTH].  The decoder keeps the prefix
    of a frame in a [Buffer] of 100 bytes and a frame that comes in parts
    in one of the claimed length: [step] below is the decoder for prefixes
    of at most 100 bytes that claim at most this length, and says nothing
    of others, on which the decoder raises an error of its own. *)
Definition max_length : N := 2 ^ 30 - 1.

(** One more byte of the stream: the next state, and the frame this byte
    completes.  A prefix of zero starts no frame. *)
Definition step (d : Decoder) (b : byte) : Decoder * option bytes :=
  if (_missing d =? 0)%N then
    if (Byte.to_N b <? 128)%N
    then (mkDecoder [] (varint_decode (_prefix d ++ [b])) [], None)
    else (mkDecoder (_prefix d ++ [b]) 0 [], None)
  else if (_missing d =? 1)%N then (decode, Some (_message d ++ [b]))
  else (mkDecoder [] (_missing d - 1) (_message d ++ [b]), None).

(** A chunk written to the decoder: the next state and the frames it
    pushes, in order *)
Fixpoint write (d : Decoder) (chunk : bytes) : Decoder * list bytes :=
  match chunk with
  | [] => (d, [])
  | b :: rest =>
      let (d1, f) := step d b in
      let (d2, fs) := write d1 rest in
      (d2, match f with Some x => x :: fs | None => fs end)
  end.

End Lpstream.

(** ** What the module takes from [tweetnacl] and from [Buffer.from] *)

Class Externals := {
  (** the state of the random source behind [nacl.randomBytes] *)
  Rng : Type;
  (** [nacl.randomBytes (n)] *)
  nacl_randomBytes : Rng -> nat -> bytes * Rng;
  (** [nacl.scalarMult.base (secretKey)]: the public key of a secret key *)
  nacl_scalarMult_base : bytes -> bytes;
  (** the secret key [nacl.box.keyPair ()] draws *)
  nacl_box_keyPair_secretKey : Rng -> bytes * Rng;
  (** [nacl.box (msg, nonce, publicKey, secretKey)]; throws on a key or a
      nonce of the wrong size *)
  nacl_box : bytes -> bytes -> bytes -> bytes -> result bytes;
  (** [nacl.box.open (box, nonce, publicKey, secretKey)]: [None] is [null],
      the box does not open; throws on a key or a nonce of the wrong size *)
  nacl_box_open : bytes -> bytes -> bytes -> bytes -> result (option bytes);
  (** [Buffer.from (v, 'base64')] for an array or an object [v] *)
  Buffer_from_object : Json.json -> result bytes;
}.

(** [nacl.box.nonceLength] *)
Definition nacl_box_nonceLength : nat := 24.

(** [nacl.box.publicKeyLength] and [nacl.box.secretKeyLength] *)
Definition nacl_box_keyLength : nat := 32.

(** [Buffer.from (v, 'base64')] for the value of a property read; [None]
    is [undefined] *)
Definition Buffer_from_base64 {E : Externals} (v : option Json.json) : result bytes :=
  match v with
  | Some (Json.JString s) => Ok (Base64.decode s)
  | Some (Json.JArray l) => Buffer_from_object (Json.JArray l)
  | Some (Json.JObject ms) => Buffer_from_object (Json.JObject ms)
  | Some Json.JNull | Some (Json.JBool _) | Some (Json.JNumber _) | None =>
      Throw (TypeError "The first argument must be of type string or an instance of Buffer, ArrayBuffer, or Array or an Array-like Object")
  end.

(** The key pairs of the module: [{ pk, sk }] *)
Module KeyPair.
Record t := mk { pk : bytes; sk : bytes }.
End KeyPair.

(** ** [net.Socket] *)

Module Socket.

(** What the module can observe of a socket: whether [destroy] has been
    called on it or it has ended, whether it has emitted its ['close'],
    and the bytes written to it. *)
Record t := mk {
  destroyed : bool;
  closed : bool;
  written : bytes;
}.

(** A socket as [net.createConnection] or the server's connection
    callback hands it over *)
Definition fresh : t := mk false false [].

(** [socket.write (chunk)]: nothing goes out once the socket is destroyed *)
Definition write (s : t) (chunk : bytes) : t :=
  if destroyed s then s else mk false (closed s) (written s ++ chunk).

(** [socket.destroy ()] *)
Definition destroy (s : t) : t := mk true (closed s) (written s).

(** The socket's own state when it emits ['close'] *)
Definition close (s : t) : t := mk true true (written s).

End Socket.

(** ** The objects of the module and the events they emit *)

(** A [CryptoComm] without its [_netConn], which is the connection of the
    world the channel lives in *)
Record CryptoComm := mkCryptoComm {
  pk : bytes;
  _theirPk : bytes;
  _ourSk : bytes;
}.

(** The listeners the module registers on a [NetConn] *)
Inductive data_listener : Type :=
| first_data (keyPair : KeyPair.t)
    (** [TrannyServer]: [netConn.once ('data', ...)] *)
| comm_data (this : CryptoComm).
    (** [CryptoComm._listen]: [netConn.on ('data', ...)] *)

Inductive disconnected_listener : Type :=
| comm_disconnected (this : CryptoComm).
    (** [CryptoComm._listen]: [netConn.on ('disconnected', ...)] *)

(** A [NetConn]; the encoder keeps nothing between two writes.  [on_data]
    and [on_disconnected] are the listeners of the emitter, in the order of
    registration; the flag tells a [once] listener. *)
Record NetConn := mkNetConn {
  _socket : Socket.t;
  _socketDecoder : Lpstream.Decoder;
  on_data : list (bool * data_listener);
  on_disconnected : list disconnected_listener;
}.

(** The argument of a ['message'] event: [null], a [Buffer], or the
    [Uint8Array] that [nacl.box.open] has returned, as it is *)
Inductive payload : Type :=
| Null
| Buf (b : bytes)
| Uint8Array (a : bytes).

(** The [emit] calls of the module *)
Inductive event : Type :=
| NetConn_data (data : bytes)
| NetConn_disconnected
| CryptoComm_message (comm : CryptoComm) (p : payload)
| CryptoComm_disconnected (comm : CryptoComm)
| TrannyServer_client (comm : CryptoComm).

(** ** One connection and the computations on it *)

Record World {E : Externals} := mkWorld {
  netConn : NetConn;
  random : Rng;
}.
Arguments mkWorld {E} netConn random.

(** How a call ends: it returns or it throws; either way it leaves a world
    and the events emitted on the way, in order. *)
Inductive outcome {E : Externals} (A : Type) : Type :=
| Returned (a : A) (w : World) (emitted : list event)
| Thrown (e : js_error) (w : World) (emitted : list event).
Arguments Returned {E A} a w emitted.
Arguments Thrown {E A} e w emitted.

Definition M {E : Externals} (A : Type) : Type := World -> outcome A.

Definition ret {E : Externals} {A} (a : A) : M A := fun w => Returned a w [].

Definition bind {E : Externals} {A B} (m : M A) (k : A -> M B) : M B :=
  fun w =>
    match m w with
    | Returned a w1 ev1 =>
        match k a w1 with
        | Returned b w2 ev2 => Returned b w2 (ev1 ++ ev2)
        | Thrown e w2 ev2 => Thrown e w2 (ev1 ++ ev2)
        end
    | Thrown e w1 ev1 => Thrown e w1 ev1
    end.

Notation "x <- m ;; k" := (bind m (fun x => k))
  (at level 61, m at next level, right associativity).
Notation "m ;; k" := (bind m (fun _ => k))
  (at level 61, right associativity).

Definition throw {E : Externals} {A} (e : js_error) : M A := fun w => Thrown e w [].

Definition lift {E : Externals} {A} (r : result A) : M A :=
  match r with
  | Ok a => ret a
  | Throw e => throw e
  end.

Definition emit {E : Externals} (ev : event) : M unit := fun w => Returned tt w [ev].

Definition get_netConn {E : Externals} : M NetConn :=
  fun w => Returned (netConn w) w [].

Definition set_netConn {E : Externals} (c : NetConn) : M unit :=
  fun w => Returned tt (mkWorld c (random w)) [].

Definition randomBytes {E : Externals} (n : nat) : M bytes :=
  fun w =>
    let (b, g) := nacl_randomBytes (random w) n in
    Returned b (mkWorld (netConn w) g) [].

Fixpoint for_each {E : Externals} {A} (f : A -> M unit) (l : list A) : M unit :=
  match l with
  | [] => ret tt
  | x :: rest => f x ;; for_each f rest
  end.

(** ** class NetConn *)

Module NetConn.

(** The listeners [_listen] registers, on the decoder's ['data'] and on
    the socket's ['close'], are the two [emit] calls of [react] below. *)
Definition constructor (socket : Socket.t) : NetConn :=
  mkNetConn socket Lpstream.decode [] [].

(** The encoder pushes the framed bytes down the pipe to the socket. *)
Definition send {E : Externals} (data : bytes) : M unit :=
  c <- get_netConn ;;
  set_netConn
    (mkNetConn (Socket.write (_socket c) (Lpstream.encode data))
       (_socketDecoder c) (on_data c) (on_disconnected c)).

Definition destroy {E : Externals} : M unit :=
  c <- get_netConn ;;
  set_netConn
    (mkNetConn (Socket.destroy (_socket c))
       (_socketDecoder c) (on_data c) (on_disconnected c)).

End NetConn.

(** ** class CryptoComm *)

Module CryptoComm.

(** The constructor, with [_listen]: the two listeners go to the
    connection, after the ones it has. *)
Definition constructor {E : Externals} (theirPk ourSk : bytes) : M CryptoComm :=
  let this := mkCryptoComm theirPk theirPk ourSk in
  c <- get_netConn ;;
  set_netConn
    (mkNetConn (_socket c) (_socketDecoder c)
       (on_data c ++ [(false, comm_data this)])
       (on_disconnected c ++ [comm_disconnected this])) ;;
  ret this.

Definition _onData {E : Externals} (this : CryptoComm) (data : bytes) : M unit :=
  decodedData <- lift (Json.parse (Buffer_toString data)) ;;
  d <- lift (Json.get decodedData "data") ;;
  encryptedData <- lift (Buffer_from_base64 d) ;;
  n <- lift (Json.get decodedData "nonce") ;;
  nonce <- lift (Buffer_from_base64 n) ;;
  decryptedData <- lift (nacl_box_open encryptedData nonce (_theirPk this) (_ourSk this)) ;;
  match decryptedData with
  | None => ret tt
  | Some m => emit (CryptoComm_message this (Buf m))
  end.

(** The object [send] encodes *)
Definition envelope (encryptedData nonce : bytes) : Json.json :=
  Json.JObject
    [("data", Json.JString (Base64.encode encryptedData));
     ("nonce", Json.JString (Base64.encode nonce))].

Definition send {E : Externals} (this : CryptoComm) (data : bytes) : M unit :=
  nonce <- randomBytes nacl_box_nonceLength ;;
  encryptedData <- lift (nacl_box data nonce (_theirPk this) (_ourSk this)) ;;
  let encodedData := Buffer_from_string (Json.stringify (envelope encryptedData nonce)) in
  NetConn.send encodedData.

Definition destroy {E : Externals} (this : CryptoComm) : M unit := NetConn.destroy.

End CryptoComm.

(** ** The emitter of a [NetConn] *)

Module Emitter.

Definition data_listener_eqb (a b : data_listener) : bool :=
  match a, b with
  | first_data k1, first_data k2 =>
      bytes_eqb (KeyPair.pk k1) (KeyPair.pk k2) && bytes_eqb (KeyPair.sk k1) (KeyPair.sk k2)
  | comm_data c1, comm_data c2 =>
      bytes_eqb (pk c1) (pk c2) && bytes_eqb (_theirPk c1) (_theirPk c2)
      && bytes_eqb (_ourSk c1) (_ourSk c2)
  | _, _ => false
  end.

(** [removeListener] for a [once] listener about to run *)
Fixpoint remove_once (l : data_listener) (ls : list (bool * data_listener)) :=
  match ls with
  | [] => []
  | (once, l') :: rest =>
      if once && data_listener_eqb l l' then rest
      else (once, l') :: remove_once l rest
  end.

Definition removeListener {E : Externals} (l : data_listener) : M unit :=
  c <- get_netConn ;;
  set_netConn
    (mkNetConn (_socket c) (_socketDecoder c)
       (remove_once l (on_data c)) (on_disconnected c)).

(** A listener of ['data'] called with a frame *)
Definition call_data_listener {E : Externals} (l : data_listener) (data : bytes) : M unit :=
  match l with
  | first_data keyPair =>
      comm <- CryptoComm.constructor data (KeyPair.sk keyPair) ;;
      emit (TrannyServer_client comm)
  | comm_data this => CryptoComm._onData this data
  end.

(** [emit] calls the listeners registered when it starts, in order; a
    [once] listener is removed before it runs; a throwing listener ends
    the call. *)
Fixpoint call_data_listeners {E : Externals}
    (ls : list (bool * data_listener)) (data : bytes) : M unit :=
  match ls with
  | [] => ret tt
  | (once, l) :: rest =>
      (if once then removeListener l else ret tt) ;;
      call_data_listener l data ;;
      call_data_listeners rest data
  end.

(** [netConn.emit ('data', data)] *)
Definition emit_data {E : Externals} (data : bytes) : M unit :=
  emit (NetConn_data data) ;;
  c <- get_netConn ;;
  call_data_listeners (on_data c) data.

Definition call_disconnected_listener {E : Externals} (l : disconnected_listener) : M unit :=
  match l with
  | comm_disconnected this => emit (CryptoComm_disconnected this)
  end.

(** [netConn.emit ('disconnected')] *)
Definition emit_disconnected {E : Externals} : M unit :=
  emit NetConn_disconnected ;;
  c <- get_netConn ;;
  for_each call_disconnected_listener (on_disconnected c).

End Emitter.

(** ** class TrannyServer *)

Module TrannyServer.

(** The callback of [net.createServer], run for an accepted socket: the
    world of the new connection *)
Definition connection {E : Externals} (keyPair : KeyPair.t) (socket : Socket.t) (g : Rng) : World :=
  let c := NetConn.constructor socket in
  mkWorld
    (mkNetConn (_socket c) (_socketDecoder c) [(true, first_data keyPair)] [])
    g.

End TrannyServer.

(** ** class TrannyClient *)

Module TrannyClient.

(** The constructor on the world of its new connection *)
Definition constructor_body {E : Externals} (keyPair : KeyPair.t) (theirPk : bytes) : M CryptoComm :=
  NetConn.send (KeyPair.pk keyPair) ;;
  CryptoComm.constructor theirPk (KeyPair.sk keyPair).

Definition constructor {E : Externals} (keyPair : KeyPair.t) (theirPk : bytes) (g : Rng) : outcome CryptoComm :=
  constructor_body keyPair theirPk (mkWorld (NetConn.constructor Socket.fresh) g).

End TrannyClient.

(** ** genKeyPair *)

Definition genKeyPair {E : Externals} (g : Rng) : KeyPair.t * Rng :=
  let (secretKey, g') := nacl_box_keyPair_secretKey g in
  (KeyPair.mk (nacl_scalarMult_base secretKey) secretKey, g').

(** ** The receive handler of the second listing *)

Module Listing2.

Definition _onData {E : Externals} (this : CryptoComm) (data : bytes) : M unit :=
  decodedData <- lift (Json.parse (Buffer_toString data)) ;;
  d <- lift (Json.get decodedData "data") ;;
  encryptedData <- lift (Buffer_from_base64 d) ;;
  n <- lift (Json.get decodedData "nonce") ;;
  nonce <- lift (Buffer_from_base64 n) ;;
  decryptedData <- lift (nacl_box_open encryptedData nonce (_theirPk this) (_ourSk this)) ;;
  emit (CryptoComm_message this
          match decryptedData with
          | None => Null
          | Some m => Uint8Array m
          end).

End Listing2.

(** ** What happens to a connection *)

Inductive input : Type :=
| socket_data (chunk : bytes)
    (** the socket emits ['data'], which the pipe writes to the decoder *)
| socket_close
    (** the socket emits ['close'] *)
| socket_error (e : js_error)
    (** the socket emits ['error'] *)
| call_send (comm : CryptoComm) (data : bytes)
| call_destroy (comm : CryptoComm).

(** What the module does when something happens to its connection.
    - The socket emits ['data']: the pipe writes the chunk to the decoder,
      whose listener (lines 32-35) emits every frame the chunk completes,
      one after the other.  A destroyed socket emits no ['data'].
    - The socket emits ['close']: the listener of lines 37-39 emits
      ['disconnected'].  A socket emits its ['close'] once.
    - The socket emits ['error']: the module registers no listener of it
      (lines 30-40), so none of its code runs.  The pipe from the encoder
      to the socket listens to it, and as [length-prefixed-stream] 2 has
      it, nothing is thrown.  The ['close'] that follows an ['error'] is an
      input of its own.
    - [send] or [destroy] is called on a channel of the connection, between
      two events of the socket.  A call that a listener makes while a chunk
      is being handled is not an input: the frames the decoder still holds
      then go through [Emitter.emit_data] as the others do. *)
Definition react {E : Externals} (i : input) : M unit :=
  match i with
  | socket_data chunk =>
      c <- get_netConn ;;
      if Socket.destroyed (_socket c) then ret tt
      else
        let (d, frames) := Lpstream.write (_socketDecoder c) chunk in
        set_netConn (mkNetConn (_socket c) d (on_data c) (on_disconnected c)) ;;
        for_each Emitter.emit_data frames
  | socket_close =>
      c <- get_netConn ;;
      if Socket.closed (_socket c) then ret tt
      else
        set_netConn
          (mkNetConn (Socket.close (_socket c)) (_socketDecoder c)
             (on_data c) (on_disconnected c)) ;;
        Emitter.emit_disconnected
  | socket_error e => ret tt
  | call_send comm data => CryptoComm.send comm data
  | call_destroy comm => CryptoComm.destroy comm
  end.

(** A thrown error is caught nowhere in the module: it ends the run. *)
Definition run {E : Externals} (inputs : list input) : M unit := for_each react inputs.

Definition emitted_of {E : Externals} {A} (o : outcome A) : list event :=
  match o with
  | Returned _ _ ev => ev
  | Thrown _ _ ev => ev
  end.

Definition world_of {E : Externals} {A} (o : outcome A) : World :=
  match o with
  | Returned _ w _ => w
  | Thrown _ w _ => w
  end.

Definition thrown_of {E : Externals} {A} (o : outcome A) : option js_error :=
  match o with
  | Returned _ _ _ => None
  | Thrown e _ _ => Some e
  end.

(** ** What the proofs need from [tweetnacl] *)

(** A key pair as [nacl.box.keyPair] makes them *)
Definition valid_keyPair {E : Externals} (k : KeyPair.t) : Prop :=
  List.length (KeyPair.sk k) = nacl_box_keyLength /\
  KeyPair.pk k = nacl_scalarMult_base (KeyPair.sk k).

Class ExternalsOk (E : Externals) : Prop := {
  randomBytes_length :
    forall g n, List.length (fst (nacl_randomBytes g n)) = n;
  keyPair_secretKey_length :
    forall g, List.length (fst (nacl_box_keyPair_secretKey g)) = nacl_box_keyLength;
  box_open_box :
    forall msg nonce A B,
      valid_keyPair A -> valid_keyPair B ->
      List.length nonce = nacl_box_nonceLength ->
      exists c,
        nacl_box msg nonce (KeyPair.pk B) (KeyPair.sk A) = Ok c /\
        nacl_box_open c nonce (KeyPair.pk A) (KeyPair.sk B) = Ok (Some msg);
}.

(** ** An instance of the externals to run the model on *)

Module Toy.

Definition xor (a b : byte) : byte := byte_of_N (N.lxor (Byte.to_N a) (Byte.to_N b)).

Fixpoint xor_bytes (a b : bytes) : bytes :=
  match a, b with
  | x :: a', y :: b' => xor x y :: xor_bytes a' b'
  | _, _ => []
  end.

(** The size checks of [nacl.box] and of [nacl.box.open], in their order:
    the two keys, then the nonce *)
Definition size_error (nonce publicKey secretKey : bytes) : option js_error :=
  if negb (List.length publicKey =? nacl_box_keyLength)%nat
  then Some (Error "bad public key size")
  else if negb (List.length secretKey =? nacl_box_keyLength)%nat
  then Some (Error "bad secret key size")
  else if negb (List.length nonce =? nacl_box_nonceLength)%nat
  then Some (Error "bad nonce size")
  else None.

(** The box of a message: the shared key, the nonce, the message *)
Definition box (msg nonce publicKey secretKey : bytes) : result bytes :=
  match size_error nonce publicKey secretKey with
  | Some e => Throw e
  | None => Ok (xor_bytes publicKey secretKey ++ nonce ++ msg)
  end.

Definition box_open (c nonce publicKey secretKey : bytes) : result (option bytes) :=
  match size_error nonce publicKey secretKey with
  | Some e => Throw e
  | None =>
      let tag := xor_bytes publicKey secretKey ++ nonce in
      if bytes_eqb (firstn (List.length tag) c) tag
      then Ok (Some (skipn (List.length tag) c))
      else Ok None
  end.

(** The random source is a counter. *)
Definition externals : Externals := {|
  Rng := N;
  nacl_randomBytes := fun g n => (repeat (byte_of_N g) n, N.succ g);
  nacl_scalarMult_base := fun secretKey => secretKey;
  nacl_box_keyPair_secretKey := fun g => (repeat (byte_of_N g) nacl_box_keyLength, N.succ g);
  nacl_box := box;
  nacl_box_open := box_open;
  Buffer_from_object := fun _ => Throw (TypeError "The first argument must be of type string");
|}.

(** Two key pairs, the initiator's channel after its constructor and the
    responder's channel after the handshake frame *)
Definition A : KeyPair.t := fst (@genKeyPair externals 1%N).
Definition B : KeyPair.t := fst (@genKeyPair externals 2%N).
Definition a : CryptoComm := mkCryptoComm (KeyPair.pk B) (KeyPair.pk B) (KeyPair.sk A).
Definition b : CryptoComm := mkCryptoComm (KeyPair.pk A) (KeyPair.pk A) (KeyPair.sk B).
Definition wA : @World externals :=
  world_of (@TrannyClient.constructor externals A (KeyPair.pk B) 7%N).
Definition wB : @World externals :=
  world_of
    (@run externals [socket_data (Socket.written (_socket (netConn wA)))]
       (@TrannyServer.connection externals B Socket.fresh 9%N)).

(** A well-formed envelope whose box does not open *)
Definition forged : bytes :=
  Buffer_from_string (Json.stringify (CryptoComm.envelope [x00] (repeat x07 nacl_box_nonceLength))).

(** A frame that opens on the responder's channel, to the two bytes of
    [hi] *)
Definition hi : bytes :=
  Buffer_from_string
    (Json.stringify
       (CryptoComm.envelope
          (xor_bytes (KeyPair.pk A) (KeyPair.sk B)
           ++ repeat x07 nacl_box_nonceLength ++ [x68; x69])
          (repeat x07 nacl_box_nonceLength))).

(** A well-formed envelope whose nonce has one byte:
    [{ data: 'AA==', nonce: 'AA==' }] *)
Definition short_nonce : bytes :=
  Buffer_from_string (Json.stringify (CryptoComm.envelope [x00] [x00])).

(** A connection without listeners *)
Definition w0 : @World externals :=
  @mkWorld externals (NetConn.constructor Socket.fresh) 0%N.

End Toy.

(** ** Notions the statements use *)

(** The characters [JSON.stringify] writes as they are *)
Definition plain_char (c : ascii) : bool :=
  negb (c =? Json.dquote)%char && negb (c =? Json.backslash)%char
  && (32 <=? N_of_ascii c)%N.

Fixpoint plain (s : string) : bool :=
  match s with
  | EmptyString => true
  | String c r => plain_char c && plain r
  end.

(** The text of one member with a string value, followed by [rest] *)
Definition member_text (k s rest : string) : string :=
  String Json.dquote (append k (String Json.dquote (String ":"
    (String Json.dquote (append s (String Json.dquote rest)))))).

(** What a receive handler reads out of a frame: the plaintext, [None]
    when the box does not open, or the error thrown on the way *)
Definition opened {E : Externals} (this : CryptoComm) (data : bytes) : result (option bytes) :=
  match Json.parse (Buffer_toString data) with
  | Throw e => Throw e
  | Ok decodedData =>
      match Json.get decodedData "data" with
      | Throw e => Throw e
      | Ok d =>
          match Buffer_from_base64 d with
          | Throw e => Throw e
          | Ok encryptedData =>
              match Json.get decodedData "nonce" with
              | Throw e => Throw e
              | Ok n =>
                  match Buffer_from_base64 n with
                  | Throw e => Throw e
                  | Ok nonce =>
                      nacl_box_open encryptedData nonce (_theirPk this) (_ourSk this)
                  end
              end
          end
      end
  end.

(** A frame that holds an envelope: an object whose [data] and [nonce] are
    strings, the base64 of [encryptedData] and of [nonce] *)
Definition well_formed_envelope (data encryptedData nonce : bytes) : Prop :=
  exists v ds ns,
    Json.parse (Buffer_toString data) = Ok v /\
    Json.get v "data" = Ok (Some (Json.JString ds)) /\
    Json.get v "nonce" = Ok (Some (Json.JString ns)) /\
    Base64.decode ds = encryptedData /\
    Base64.decode ns = nonce.

(** The world of an established channel: [this] is the one listener of the
    connection's ['data'] and of its ['disconnected']. *)
Definition channel_world {E : Externals} (this : CryptoComm) (w : World) : Prop :=
  on_data (netConn w) = [(false, comm_data this)] /\
  on_disconnected (netConn w) = [comm_disconnected this].

Definition live {E : Externals} (w : World) : Prop :=
  Socket.destroyed (_socket (netConn w)) = false.

(** The decoder is between two frames. *)
Definition idle {E : Externals} (w : World) : Prop :=
  _socketDecoder (netConn w) = Lpstream.decode.

Definition is_message (ev : event) : bool :=
  match ev with CryptoComm_message _ _ => true | _ => false end.

Definition is_closed (ev : event) : bool :=
  match ev with
  | NetConn_disconnected | CryptoComm_disconnected _ => true
  | _ => false
  end.

(** The call throws an error of the given name and leaves the socket of
    the connection destroyed. *)
Definition closes_with {E : Externals} {A} (error_name : string) (o : outcome A) : Prop :=
  (exists e, thrown_of o = Some e /\ name e = error_name) /\
  Socket.destroyed (_socket (netConn (world_of o))) = true.

(** The world with the decoder in another state *)
Definition with_decoder {E : Externals} (w : World) (d : Lpstream.Decoder) : World :=
  mkWorld
    (mkNetConn (_socket (netConn w)) d (on_data (netConn w)) (on_disconnected (netConn w)))
    (random w).

(** The events a channel's connection emits for one frame that does not
    make the handler throw *)
Definition frame_events {E : Externals} (this : CryptoComm) (f : bytes) : list event :=
  NetConn_data f ::
  match opened this f with
  | Ok (Some m) => [CryptoComm_message this (Buf m)]
  | _ => []
  end.

(** The handler returns on the frame. *)
Definition frame_returns {E : Externals} (this : CryptoComm) (f : bytes) : Prop :=
  exists r, opened this f = Ok r.

(** A frame that is no envelope: its text does not parse, or it parses to
    [null] or to a value without [data] or without [nonce] *)
Definition lacks_field (v : Json.json) : Prop :=
  v = Json.JNull \/ Json.get v "data" = Ok None \/ Json.get v "nonce" = Ok None.

Definition malformed (data : bytes) : Prop :=
  (exists e, Json.parse (Buffer_toString data) = Throw e) \/
  (exists v, Json.parse (Buffer_toString data) = Ok v /\ lacks_field v).

(** The world with other listeners on the connection *)
Definition with_listeners {E : Externals} (w : World)
    (ls : list (bool * data_listener)) (ds : list disconnected_listener) : World :=
  mkWorld (mkNetConn (_socket (netConn w)) (_socketDecoder (netConn w)) ls ds) (random w).

(** The world of a connection the server has accepted, before its first
    frame *)
Definition accepted_world {E : Externals} (keyPair : KeyPair.t) (w : World) : Prop :=
  on_data (netConn w) = [(true, first_data keyPair)] /\
  on_disconnected (netConn w) = [].

(** The events of one ['disconnected'] of the connection: its own, then
    the one of every channel that listens *)
Definition closed_signals {E : Externals} (w : World) : list event :=
  NetConn_disconnected ::
  map (fun l => match l with comm_disconnected this => CryptoComm_disconnected this end)
    (on_disconnected (netConn w)).

(** The world with the socket in another state *)
Definition with_socket {E : Externals} (w : World) (s : Socket.t) : World :=
  mkWorld
    (mkNetConn s (_socketDecoder (netConn w)) (on_data (netConn w))
       (on_disconnected (netConn w)))
    (random w).

(** The name of the error a call has thrown *)
Definition thrown_name {A} (r : result A) : option string :=
  match r with
  | Ok _ => None
  | Throw e => Some (name e)
  end.

(** ** Notions the further statements use *)

(** The outcome with its world changed *)
Definition outcome_map {E : Externals} {A} (f : World -> World) (o : outcome A) : outcome A :=
  match o with
  | Returned a w ev => Returned a (f w) ev
  | Thrown e w ev => Thrown e (f w) ev
  end.

(** The outcome of a call that returns nothing, from what it throws *)
Definition ended {E : Externals} (r : option js_error) (w : World) (ev : list event) : outcome unit :=
  match r with
  | None => Returned tt w ev
  | Some e => Thrown e w ev
  end.

(** The bytes on the wire of a sequence of frames *)
Definition framed (frames : list bytes) : bytes :=
  List.concat (map Lpstream.encode frames).

(** The frames [send] writes for a sequence of messages, from a state of
    the random source on; a message whose box throws ends the sequence. *)
Fixpoint sent_frames {E : Externals} (this : CryptoComm) (msgs : list bytes) (g : Rng)
    : list bytes :=
  match msgs with
  | [] => []
  | m :: rest =>
      let (nonce, g') := nacl_randomBytes g nacl_box_nonceLength in
      match nacl_box m nonce (_theirPk this) (_ourSk this) with
      | Ok c =>
          Buffer_from_string (Json.stringify (CryptoComm.envelope c nonce))
            :: sent_frames this rest g'
      | Throw _ => []
      end
  end.

(** The state of the random source after [n] nonces *)
Fixpoint random_after {E : Externals} (n : nat) (g : Rng) : Rng :=
  match n with
  | O => g
  | S n' => random_after n' (snd (nacl_randomBytes g nacl_box_nonceLength))
  end.

(** The events of a channel that receives frames and opens them to
    messages *)
Definition delivered (this : CryptoComm) (frames msgs : list bytes) : list event :=
  flat_map
    (fun fm => [NetConn_data (fst fm); CryptoComm_message this (Buf (snd fm))])
    (combine frames msgs).

(** The events a connection with the one channel [this] emits *)
Definition channel_event (this : CryptoComm) (ev : event) : Prop :=
  match ev with
  | NetConn_data _ | NetConn_disconnected => True
  | CryptoComm_message comm (Buf _) => comm = this
  | CryptoComm_message _ Null | CryptoComm_message _ (Uint8Array _) => False
  | CryptoComm_disconnected comm => comm = this
  | TrannyServer_client _ => False
  end.

Definition is_send (i : input) : bool :=
  match i with call_send _ _ => true | _ => false end.

Definition is_client (ev : event) : bool :=
  match ev with TrannyServer_client _ => true | _ => false end.

(** What the first listing emits where the second emits [ev]: nothing for
    a ['message'] of [null], a [Buffer] for a [Uint8Array] *)
Definition as_listing1 (ev : event) : list event :=
  match ev with
  | CryptoComm_message _ Null => []
  | CryptoComm_message comm (Uint8Array m) => [CryptoComm_message comm (Buf m)]
  | _ => [ev]
  end.

(* ================================================================== *)
(** * Properties *)

(** ** The models on known values *)

Example base64_f : Base64.encode (Buffer_from_string "f") = "Zg==".
Proof. reflexivity. Qed.

Example base64_fo : Base64.encode (Buffer_from_string "fo") = "Zm8=".
Proof. reflexivity. Qed.

Example base64_foobar : Base64.encode (Buffer_from_string "foobar") = "Zm9vYmFy".
Proof. reflexivity. Qed.

Example base64_lenient :
  Buffer_toString (Base64.decode "Zm9v YmFy") = "foobar" /\
  Buffer_toString (Base64.decode "Zm9vYg") = "foob" /\
  Buffer_toString (Base64.decode "Zm9v=YmFy") = "foo".
Proof. repeat split. Qed.

Example varint_300 : Lpstream.varint_encode 300 = [xac; x02].
Proof. reflexivity. Qed.

Example lpstream_two_frames :
  Lpstream.write Lpstream.decode
    (Lpstream.encode [x61; x62] ++ Lpstream.encode [] ++ Lpstream.encode [x63])
  = (Lpstream.decode, [[x61; x62]; [x63]]).
Proof. reflexivity. Qed.

Example json_values :
  Json.parse " [1, -2.5e+3, true, null, {}, [ ]] "
  = Ok (Json.JArray
          [Json.JNumber "1"; Json.JNumber "-2.5e+3"; Json.JBool true; Json.JNull;
           Json.JObject []; Json.JArray []]).
Proof. reflexivity. Qed.

Example json_nested :
  Json.parse "[[[[]]],[[],[[]]]]"
  = Ok (Json.JArray
          [Json.JArray [Json.JArray [Json.JArray []]];
           Json.JArray [Json.JArray []; Json.JArray [Json.JArray []]]]).
Proof. reflexivity. Qed.

Example json_rejects :
  thrown_name (Json.parse "x") = Some "SyntaxError" /\
  thrown_name (Json.parse "[1,]") = Some "SyntaxError" /\
  thrown_name (Json.parse "01") = Some "SyntaxError" /\
  thrown_name (Json.parse "{} {}") = Some "SyntaxError" /\
  thrown_name (Json.parse EmptyString) = Some "SyntaxError".
Proof. repeat split. Qed.

Example json_envelope :
  Json.stringify (CryptoComm.envelope [x66; x6f; x6f] [x66])
  = String "{" (member_text "data" "Zm9v" (String "," (member_text "nonce" "Zg==" "}"))).
Proof. reflexivity. Qed.

(** ** Bytes *)

Local Ltac div_lia :=
  zify; Z.to_euclidean_division_equations; lia.

Lemma byte_of_N_to_N (x : byte) : byte_of_N (Byte.to_N x) = x.
Proof.
  unfold byte_of_N. rewrite <- ascii_of_byte_via_N.
  apply byte_of_ascii_of_byte.
Qed.

Lemma byte_of_N_eq (n : N) (x : byte) : n = Byte.to_N x -> byte_of_N n = x.
Proof. intros ->. apply byte_of_N_to_N. Qed.

Lemma to_N_lt_256 (x : byte) : (Byte.to_N x < 256)%N.
Proof. destruct x; vm_compute; reflexivity. Qed.

(** ** Base64 *)

Lemma unbase64_digit (v : N) : (v < 64)%N -> Base64.unbase64 (Base64.digit v) = Some v.
Proof.
  intros H.
  assert (E : forall k, (k < 64)%nat ->
            Base64.unbase64 (Base64.digit (N.of_nat k)) = Some (N.of_nat k)).
  { do 64 (destruct k as [|k]; [intros _; vm_compute; reflexivity|]). lia. }
  rewrite <- (N2Nat.id v). apply E. lia.
Qed.

Lemma digit_not_pad (v : N) : (v < 64)%N -> (Base64.digit v =? "=")%char = false.
Proof.
  intros H.
  assert (E : forall k, (k < 64)%nat -> (Base64.digit (N.of_nat k) =? "=")%char = false).
  { do 64 (destruct k as [|k]; [intros _; vm_compute; reflexivity|]). lia. }
  rewrite <- (N2Nat.id v). apply E. lia.
Qed.

Lemma bytes_ind3 (P : bytes -> Prop) :
  P [] -> (forall x, P [x]) -> (forall x y, P [x; y]) ->
  (forall x y z rest, P rest -> P (x :: y :: z :: rest)) ->
  forall b, P b.
Proof.
  intros H0 H1 H2 H3.
  fix IH 1. intros [|x [|y [|z rest]]].
  - exact H0.
  - apply H1.
  - apply H2.
  - apply H3, IH.
Qed.

Local Ltac sextet_step :=
  rewrite digit_not_pad, unbase64_digit by div_lia.

Lemma decode_encode (b : bytes) : Base64.decode (Base64.encode b) = b.
Proof.
  unfold Base64.decode.
  induction b as [|x|x y|x y z rest IH] using bytes_ind3.
  - reflexivity.
  - pose proof (to_N_lt_256 x).
    cbn [Base64.encode Base64.sextets]. unfold Base64.pad2. do 2 sextet_step.
    cbn [Base64.sextets].
    cbn [Ascii.eqb Bool.eqb Base64.unpack].
    f_equal; apply byte_of_N_eq; div_lia.
  - pose proof (to_N_lt_256 x). pose proof (to_N_lt_256 y).
    cbn [Base64.encode Base64.sextets]. unfold Base64.pad1. do 3 sextet_step.
    cbn [Base64.sextets].
    cbn [Ascii.eqb Bool.eqb Base64.unpack].
    repeat (f_equal; try (apply byte_of_N_eq; div_lia)).
  - pose proof (to_N_lt_256 x). pose proof (to_N_lt_256 y).
    pose proof (to_N_lt_256 z).
    cbn [Base64.encode Base64.sextets]. do 4 sextet_step.
    cbn [Base64.unpack]. rewrite IH.
    repeat (f_equal; try (apply byte_of_N_eq; div_lia)).
Qed.

Lemma digit_plain (v : N) : (v < 64)%N -> plain_char (Base64.digit v) = true.
Proof.
  intros H.
  assert (E : forall k, (k < 64)%nat -> plain_char (Base64.digit (N.of_nat k)) = true).
  { do 64 (destruct k as [|k]; [intros _; vm_compute; reflexivity|]). lia. }
  rewrite <- (N2Nat.id v). apply E. lia.
Qed.

Lemma encode_plain (b : bytes) : plain (Base64.encode b) = true.
Proof.
  induction b as [|x|x y|x y z rest IH] using bytes_ind3.
  - reflexivity.
  - pose proof (to_N_lt_256 x).
    cbn [Base64.encode plain]. rewrite !digit_plain by div_lia. reflexivity.
  - pose proof (to_N_lt_256 x). pose proof (to_N_lt_256 y).
    cbn [Base64.encode plain]. rewrite !digit_plain by div_lia. reflexivity.
  - pose proof (to_N_lt_256 x). pose proof (to_N_lt_256 y).
    pose proof (to_N_lt_256 z).
    cbn [Base64.encode plain]. rewrite !digit_plain by div_lia. rewrite IH.
    reflexivity.
Qed.

(** ** JSON *)

Lemma plain_char_inv (c : ascii) :
  plain_char c = true ->
  (c =? Json.dquote)%char = false /\ (c =? Json.backslash)%char = false
  /\ (32 <= N_of_ascii c)%N.
Proof.
  unfold plain_char. intros H.
  apply andb_prop in H as [H H3]. apply andb_prop in H as [H1 H2].
  apply negb_true_iff in H1, H2. apply N.leb_le in H3. auto.
Qed.

Lemma quote_char_plain (c : ascii) :
  plain_char c = true -> Json.quote_char c = String c EmptyString.
Proof.
  intros H. apply plain_char_inv in H as (H1 & H2 & H3).
  unfold Json.quote_char. rewrite H1, H2.
  repeat match goal with
         | |- context [(?a =? ?b)%N] =>
             replace (a =? b)%N with false by (symmetry; apply N.eqb_neq; lia)
         end.
  replace (N_of_ascii c <? 32)%N with false by (symmetry; apply N.ltb_ge; lia).
  reflexivity.
Qed.

Lemma quote_chars_plain (s rest : string) :
  plain s = true ->
  append (Json.quote_chars s) rest = append s (String Json.dquote rest).
Proof.
  induction s as [|c s IH]; intros H.
  - reflexivity.
  - cbn [plain] in H. apply andb_prop in H as [Hc Hs].
    cbn [Json.quote_chars]. rewrite quote_char_plain by assumption.
    cbn [append]. rewrite IH by assumption. reflexivity.
Qed.

Lemma string_body_plain (s rest : string) :
  plain s = true ->
  Json.string_body (append s (String Json.dquote rest)) = Some (s, rest).
Proof.
  induction s as [|c s IH]; intros H.
  - reflexivity.
  - cbn [plain] in H. apply andb_prop in H as [Hc Hs].
    apply plain_char_inv in Hc as (H1 & H2 & H3).
    cbn [append Json.string_body]. rewrite H1, H2.
    replace (N_of_ascii c <? 32)%N with false by (symmetry; apply N.ltb_ge; lia).
    rewrite IH by assumption. reflexivity.
Qed.

Local Ltac skip_ws_quote :=
  match goal with
  | |- context [Json.skip_ws (String ?c ?r)] =>
      change (Json.skip_ws (String c r)) with (String c r)
  end.

Lemma value_string (f : nat) (s rest : string) :
  plain s = true ->
  Json.value (S f) (String Json.dquote (append s (String Json.dquote rest)))
  = Some (Json.JString s, rest).
Proof.
  intros H. cbn [Json.value]. skip_ws_quote.
  change (Json.dquote =? Json.dquote)%char with true. cbv iota.
  rewrite string_body_plain by assumption. reflexivity.
Qed.

Lemma members_last (f : nat) (k s rest : string) :
  plain k = true -> plain s = true ->
  Json.members (S (S f)) (member_text k s (String "}" rest))
  = Some ([(k, Json.JString s)], rest).
Proof.
  intros Hk Hs. unfold member_text.
  remember (S f) as g eqn:Eg. cbn [Json.members]. skip_ws_quote.
  change (Json.dquote =? Json.dquote)%char with true. cbv iota.
  rewrite string_body_plain by assumption. skip_ws_quote.
  change (":" =? ":")%char with true. cbv iota.
  subst g. rewrite value_string by assumption. skip_ws_quote.
  reflexivity.
Qed.

Lemma members_two (f : nat) (k1 s1 k2 s2 rest : string) :
  plain k1 = true -> plain s1 = true -> plain k2 = true -> plain s2 = true ->
  Json.members (S (S (S f)))
    (member_text k1 s1 (String "," (member_text k2 s2 (String "}" rest))))
  = Some ([(k1, Json.JString s1); (k2, Json.JString s2)], rest).
Proof.
  intros Hk1 Hs1 Hk2 Hs2. unfold member_text at 1.
  remember (S (S f)) as g eqn:Eg. cbn [Json.members]. skip_ws_quote.
  change (Json.dquote =? Json.dquote)%char with true. cbv iota.
  rewrite string_body_plain by assumption. skip_ws_quote.
  change (":" =? ":")%char with true. cbv iota.
  subst g. rewrite value_string by assumption. skip_ws_quote.
  change ("," =? ",")%char with true. cbv iota.
  rewrite members_last by assumption. reflexivity.
Qed.

Lemma stringify_envelope (d n : string) :
  plain d = true -> plain n = true ->
  Json.stringify (Json.JObject [("data", Json.JString d); ("nonce", Json.JString n)])
  = String "{" (member_text "data" d (String "," (member_text "nonce" n "}"))).
Proof.
  intros Hd Hn.
  cbn [Json.stringify Json.quote append].
  rewrite (quote_chars_plain d) by assumption.
  rewrite (quote_chars_plain n) by assumption.
  reflexivity.
Qed.

Lemma value_object (f : nat) (text rest : string) (ms : list (string * Json.json)) :
  Json.members f (String Json.dquote text) = Some (ms, rest) ->
  Json.value (S f) (String "{" (String Json.dquote text)) = Some (Json.JObject ms, rest).
Proof.
  intros H. cbn [Json.value]. skip_ws_quote. cbv iota.
  change ("{" =? Json.dquote)%char with false.
  change ("{" =? "[")%char with false.
  change ("{" =? "{")%char with true. cbv iota.
  skip_ws_quote. cbv iota.
  change (Json.dquote =? "}")%char with false. cbv iota.
  rewrite H. reflexivity.
Qed.

Lemma parse_stringify_envelope (d n : string) :
  plain d = true -> plain n = true ->
  Json.parse (Json.stringify (Json.JObject [("data", Json.JString d); ("nonce", Json.JString n)]))
  = Ok (Json.JObject [("data", Json.JString d); ("nonce", Json.JString n)]).
Proof.
  intros Hd Hn. rewrite stringify_envelope by assumption.
  unfold Json.parse.
  assert (Hf : exists f, String.length (String "{" (member_text "data" d (String "," (member_text "nonce" n "}")))) = S (S (S f))).
  { cbn. eauto. }
  destruct Hf as [f ->].
  pose proof (members_two f "data" d "nonce" n EmptyString
                eq_refl Hd eq_refl Hn) as Hm.
  set (tail := String "," (member_text "nonce" n "}")) in *.
  unfold member_text in Hm |- *.
  rewrite (value_object _ _ _ _ Hm). reflexivity.
Qed.

(** ** Framing *)

Lemma to_N_byte_of_N (n : N) : (n < 256)%N -> Byte.to_N (byte_of_N n) = n.
Proof.
  intros H. unfold byte_of_N.
  pose proof (byte_of_ascii_via_N (ascii_of_N n)) as B.
  rewrite N_ascii_embedding in B by assumption.
  symmetry in B. apply Byte.to_of_N in B. exact B.
Qed.

Lemma varint_decode_app (p q : bytes) :
  Lpstream.varint_decode (p ++ q)
  = (Lpstream.varint_decode p + 128 ^ N.of_nat (List.length p) * Lpstream.varint_decode q)%N.
Proof.
  induction p as [|b p IH].
  - cbn [app List.length Lpstream.varint_decode N.of_nat]. rewrite N.pow_0_r. lia.
  - cbn [app List.length Lpstream.varint_decode]. rewrite IH.
    rewrite Nat2N.inj_succ, N.pow_succ_r'. lia.
Qed.

Lemma varint_decode_go (fuel : nat) (n : N) :
  (n < 2 ^ N.of_nat fuel)%N ->
  Lpstream.varint_decode (Lpstream.varint_go fuel n) = n.
Proof.
  revert n. induction fuel as [|fuel IH]; intros n H.
  - cbn in H. assert (n = 0%N) by lia. subst n. reflexivity.
  - cbn [Lpstream.varint_go]. destruct (N.ltb_spec n 128) as [L|L].
    + cbn [Lpstream.varint_decode]. rewrite to_N_byte_of_N by lia. div_lia.
    + cbn [Lpstream.varint_decode].
      rewrite to_N_byte_of_N by div_lia.
      rewrite IH.
      * div_lia.
      * rewrite Nat2N.inj_succ, N.pow_succ_r' in H. div_lia.
Qed.

Lemma varint_decode_encode (n : N) :
  Lpstream.varint_decode (Lpstream.varint_encode n) = n.
Proof.
  unfold Lpstream.varint_encode. apply varint_decode_go.
  rewrite N2Nat.id. apply N.size_gt.
Qed.

Lemma write_prefix (fuel : nat) (n : N) (p rest : bytes) :
  (n < 2 ^ N.of_nat fuel)%N ->
  Lpstream.write (Lpstream.mkDecoder p 0 []) (Lpstream.varint_go fuel n ++ rest)
  = Lpstream.write
      (Lpstream.mkDecoder [] (Lpstream.varint_decode (p ++ Lpstream.varint_go fuel n)) [])
      rest.
Proof.
  revert n p. induction fuel as [|fuel IH]; intros n p H.
  - cbn in H. assert (n = 0%N) by lia. subst n.
    cbn [Lpstream.varint_go app Lpstream.write]. unfold Lpstream.step at 1.
    cbn [Lpstream._missing Lpstream._prefix N.eqb].
    rewrite to_N_byte_of_N by lia. cbn [N.ltb N.compare].
    destruct (Lpstream.write _ rest). reflexivity.
  - cbn [Lpstream.varint_go]. destruct (N.ltb_spec n 128) as [L|L].
    + cbn [app Lpstream.write]. unfold Lpstream.step at 1.
      cbn [Lpstream._missing Lpstream._prefix N.eqb].
      rewrite to_N_byte_of_N by lia.
      destruct (N.ltb_spec n 128); [|lia].
      destruct (Lpstream.write _ rest). reflexivity.
    + cbn [app Lpstream.write]. unfold Lpstream.step at 1.
      cbn [Lpstream._missing Lpstream._prefix N.eqb].
      rewrite to_N_byte_of_N by div_lia.
      destruct (N.ltb_spec (n mod 128 + 128) 128); [div_lia|].
      rewrite IH.
      * rewrite <- app_assoc. cbn [app].
        destruct (Lpstream.write _ rest). reflexivity.
      * rewrite Nat2N.inj_succ, N.pow_succ_r' in H. div_lia.
Qed.

Lemma write_cons (d : Lpstream.Decoder) (b : byte) (r : bytes) :
  Lpstream.write d (b :: r)
  = let (d1, f) := Lpstream.step d b in
    let (d2, fs) := Lpstream.write d1 r in
    (d2, match f with Some x => x :: fs | None => fs end).
Proof. reflexivity. Qed.

Lemma write_payload (f acc rest : bytes) :
  f <> [] ->
  Lpstream.write (Lpstream.mkDecoder [] (N.of_nat (List.length f)) acc) (f ++ rest)
  = let (d, fs) := Lpstream.write Lpstream.decode rest in (d, (acc ++ f) :: fs).
Proof.
  revert acc. induction f as [|b f IH]; intros acc H; [congruence|].
  destruct f as [|b2 f].
  - cbn [app Lpstream.write List.length]. unfold Lpstream.step at 1.
    cbn. destruct (Lpstream.write _ rest). reflexivity.
  - rewrite <- app_comm_cons, write_cons. unfold Lpstream.step at 1.
    cbn [Lpstream._missing Lpstream._message].
    replace (N.of_nat (List.length (b :: b2 :: f)) =? 0)%N with false
      by (symmetry; apply N.eqb_neq; cbn [List.length]; lia).
    replace (N.of_nat (List.length (b :: b2 :: f)) =? 1)%N with false
      by (symmetry; apply N.eqb_neq; cbn [List.length]; lia).
    replace (N.of_nat (List.length (b :: b2 :: f)) - 1)%N
      with (N.of_nat (List.length (b2 :: f))) by (cbn [List.length]; lia).
    rewrite IH by congruence.
    destruct (Lpstream.write _ rest). rewrite <- app_assoc. reflexivity.
Qed.

Lemma write_encode (f rest : bytes) :
  Lpstream.write Lpstream.decode (Lpstream.encode f ++ rest)
  = let (d, fs) := Lpstream.write Lpstream.decode rest in
    (d, match f with [] => fs | _ :: _ => f :: fs end).
Proof.
  unfold Lpstream.encode, Lpstream.varint_encode, Lpstream.decode.
  rewrite <- app_assoc, write_prefix by (rewrite N2Nat.id; apply N.size_gt).
  cbn [app]. fold (Lpstream.varint_encode (N.of_nat (List.length f))).
  rewrite varint_decode_encode.
  destruct f as [|b f].
  - cbn [app List.length N.of_nat]. fold Lpstream.decode.
    destruct (Lpstream.write _ rest). reflexivity.
  - fold Lpstream.decode. rewrite write_payload by congruence.
    destruct (Lpstream.write _ rest). reflexivity.
Qed.

Lemma write_app (d : Lpstream.Decoder) (a b : bytes) :
  Lpstream.write d (a ++ b)
  = let (d1, fs1) := Lpstream.write d a in
    let (d2, fs2) := Lpstream.write d1 b in
    (d2, fs1 ++ fs2).
Proof.
  revert d. induction a as [|x a IH]; intros d.
  - cbn [app Lpstream.write]. destruct (Lpstream.write d b). reflexivity.
  - cbn [app Lpstream.write]. destruct (Lpstream.step d x) as [d1 o].
    rewrite IH. destruct (Lpstream.write d1 a) as [d2 fs].
    destruct (Lpstream.write d2 b) as [d3 fs3]. destruct o; reflexivity.
Qed.

(** ** The two receive handlers *)

Lemma onData_opened {E : Externals} (this : CryptoComm) (data : bytes) (w : World) :
  CryptoComm._onData this data w
  = match opened this data with
    | Ok (Some m) => Returned tt w [CryptoComm_message this (Buf m)]
    | Ok None => Returned tt w []
    | Throw e => Thrown e w []
    end.
Proof.
  unfold CryptoComm._onData, opened, bind, lift.
  destruct (Json.parse (Buffer_toString data)) as [v|e]; cbn; [|reflexivity].
  destruct (Json.get v "data") as [d|e]; cbn; [|reflexivity].
  destruct (Buffer_from_base64 d) as [c|e]; cbn; [|reflexivity].
  destruct (Json.get v "nonce") as [n|e]; cbn; [|reflexivity].
  destruct (Buffer_from_base64 n) as [nonce|e]; cbn; [|reflexivity].
  destruct (nacl_box_open c nonce (_theirPk this) (_ourSk this)) as [[m|]|e];
    reflexivity.
Qed.

Lemma onData2_opened {E : Externals} (this : CryptoComm) (data : bytes) (w : World) :
  Listing2._onData this data w
  = match opened this data with
    | Ok (Some m) => Returned tt w [CryptoComm_message this (Uint8Array m)]
    | Ok None => Returned tt w [CryptoComm_message this Null]
    | Throw e => Thrown e w []
    end.
Proof.
  unfold Listing2._onData, opened, bind, lift.
  destruct (Json.parse (Buffer_toString data)) as [v|e]; cbn; [|reflexivity].
  destruct (Json.get v "data") as [d|e]; cbn; [|reflexivity].
  destruct (Buffer_from_base64 d) as [c|e]; cbn; [|reflexivity].
  destruct (Json.get v "nonce") as [n|e]; cbn; [|reflexivity].
  destruct (Buffer_from_base64 n) as [nonce|e]; cbn; [|reflexivity].
  destruct (nacl_box_open c nonce (_theirPk this) (_ourSk this)) as [[m|]|e];
    reflexivity.
Qed.

Lemma world_eta {E : Externals} (w : World) :
  mkWorld
    (mkNetConn (_socket (netConn w)) (_socketDecoder (netConn w))
       (on_data (netConn w)) (on_disconnected (netConn w)))
    (random w) = w.
Proof. destruct w as [[s d l1 l2] g]. reflexivity. Qed.

(** ** The emitter of a connection with one channel *)

Lemma emit_data_channel {E : Externals} (this : CryptoComm) (data : bytes) (w : World) :
  on_data (netConn w) = [(false, comm_data this)] ->
  Emitter.emit_data data w
  = match opened this data with
    | Ok (Some m) => Returned tt w [NetConn_data data; CryptoComm_message this (Buf m)]
    | Ok None => Returned tt w [NetConn_data data]
    | Throw e => Thrown e w [NetConn_data data]
    end.
Proof.
  intros H. unfold Emitter.emit_data, bind, emit, get_netConn. rewrite H.
  cbn [Emitter.call_data_listeners Emitter.call_data_listener].
  unfold bind, ret. rewrite onData_opened.
  destruct (opened this data) as [[m|]|e]; reflexivity.
Qed.

Lemma for_each_frames {E : Externals} (this : CryptoComm) (fs : list bytes) (w : World) :
  on_data (netConn w) = [(false, comm_data this)] ->
  Forall (frame_returns this) fs ->
  for_each Emitter.emit_data fs w = Returned tt w (flat_map (frame_events this) fs).
Proof.
  intros Hw H. induction H as [|f fs [r Hf] _ IH].
  - reflexivity.
  - cbn [for_each flat_map]. unfold bind.
    rewrite (emit_data_channel this) by assumption.
    unfold frame_events. rewrite Hf.
    destruct r as [m|]; rewrite IH; reflexivity.
Qed.

Lemma react_chunk {E : Externals} (this : CryptoComm) (chunk : bytes) (w : World)
    (d : Lpstream.Decoder) (fs : list bytes) :
  on_data (netConn w) = [(false, comm_data this)] ->
  live w ->
  Lpstream.write (_socketDecoder (netConn w)) chunk = (d, fs) ->
  Forall (frame_returns this) fs ->
  react (socket_data chunk) w
  = Returned tt (with_decoder w d) (flat_map (frame_events this) fs).
Proof.
  intros Hw Hl Hd Hfs. unfold react, bind, get_netConn.
  unfold live in Hl. rewrite Hl, Hd. unfold bind, set_netConn.
  fold (with_decoder w d).
  rewrite (for_each_frames this) by assumption. reflexivity.
Qed.

Lemma with_decoder_same {E : Externals} (w : World) :
  with_decoder w (_socketDecoder (netConn w)) = w.
Proof. apply world_eta. Qed.

Lemma run_chunks {E : Externals} (this : CryptoComm) (chunks : list bytes) :
  forall (w : World) (d : Lpstream.Decoder) (fs : list bytes),
    on_data (netConn w) = [(false, comm_data this)] ->
    live w ->
    Lpstream.write (_socketDecoder (netConn w)) (List.concat chunks) = (d, fs) ->
    Forall (frame_returns this) fs ->
    run (map socket_data chunks) w
    = Returned tt (with_decoder w d) (flat_map (frame_events this) fs).
Proof.
  induction chunks as [|c cs IH]; intros w d fs Hw Hl Hd Hfs.
  - cbn in Hd. injection Hd as <- <-. cbn. unfold ret.
    rewrite with_decoder_same. reflexivity.
  - cbn [List.concat] in Hd. rewrite write_app in Hd.
    destruct (Lpstream.write (_socketDecoder (netConn w)) c) as [d1 fs1] eqn:E1.
    destruct (Lpstream.write d1 (List.concat cs)) as [d2 fs2] eqn:E2.
    injection Hd as <- <-. apply Forall_app in Hfs as [H1 H2].
    unfold run. cbn [map for_each]. unfold bind.
    rewrite (react_chunk this c w d1 fs1) by assumption.
    fold (run (map socket_data cs)).
    rewrite (IH (with_decoder w d1) d2 fs2) by assumption.
    rewrite flat_map_app. reflexivity.
Qed.

(** ** The instance [Toy] *)

Lemma bytes_eqb_refl (a : bytes) : bytes_eqb a a = true.
Proof.
  induction a as [|x a IH]; [reflexivity|].
  cbn [bytes_eqb]. rewrite IH, andb_true_r. apply Byte.byte_dec_lb. reflexivity.
Qed.

Lemma xor_bytes_comm (a b : bytes) : Toy.xor_bytes a b = Toy.xor_bytes b a.
Proof.
  revert b. induction a as [|x a IH]; intros [|y b]; try reflexivity.
  cbn [Toy.xor_bytes]. rewrite IH. unfold Toy.xor. rewrite N.lxor_comm. reflexivity.
Qed.

Lemma toy_ok : ExternalsOk Toy.externals.
Proof.
  split.
  - intros g n. cbn. apply repeat_length.
  - intros g. reflexivity.
  - intros msg nonce [pA sA] [pB sB] [HA1 HA2] [HB1 HB2] Hn.
    cbn in HA1, HA2, HB1, HB2 |- *. subst pA pB.
    unfold Toy.box, Toy.box_open, Toy.size_error.
    rewrite HA1, HB1, Hn. cbn [Nat.eqb nacl_box_keyLength nacl_box_nonceLength negb].
    eexists. split; [reflexivity|].
    rewrite (xor_bytes_comm sA sB), app_assoc.
    rewrite firstn_app, Nat.sub_diag, firstn_all. cbn [firstn]. rewrite app_nil_r.
    rewrite bytes_eqb_refl.
    rewrite skipn_app, Nat.sub_diag, skipn_all. reflexivity.
Qed.

(** ** Key pairs *)

Lemma genKeyPair_valid {E : Externals} {HE : ExternalsOk E} (g : Rng) :
  valid_keyPair (fst (genKeyPair g)).
Proof.
  unfold genKeyPair, valid_keyPair.
  pose proof (keyPair_secretKey_length g) as H.
  destruct (nacl_box_keyPair_secretKey g) as [secretKey g1].
  split; [exact H|reflexivity].
Qed.

(** ** Sending and receiving an envelope *)

Lemma opened_envelope {E : Externals} (this : CryptoComm) (c nonce : bytes) :
  opened this (Buffer_from_string (Json.stringify (CryptoComm.envelope c nonce)))
  = nacl_box_open c nonce (_theirPk this) (_ourSk this).
Proof.
  unfold opened, Buffer_toString, Buffer_from_string, CryptoComm.envelope.
  rewrite string_of_list_byte_of_string.
  rewrite parse_stringify_envelope by apply encode_plain.
  change (Json.get (Json.JObject [("data", Json.JString (Base64.encode c));
                                  ("nonce", Json.JString (Base64.encode nonce))]) "data")
    with (@Ok (option Json.json) (Some (Json.JString (Base64.encode c)))).
  change (Json.get (Json.JObject [("data", Json.JString (Base64.encode c));
                                  ("nonce", Json.JString (Base64.encode nonce))]) "nonce")
    with (@Ok (option Json.json) (Some (Json.JString (Base64.encode nonce)))).
  cbn [Buffer_from_base64]. rewrite !decode_encode. reflexivity.
Qed.

Lemma envelope_frame_nonempty (c nonce : bytes) :
  Buffer_from_string (Json.stringify (CryptoComm.envelope c nonce)) <> [].
Proof.
  unfold CryptoComm.envelope. rewrite stringify_envelope by apply encode_plain.
  discriminate.
Qed.

Lemma send_unfold {E : Externals} (this : CryptoComm) (data : bytes) (w : World) :
  CryptoComm.send this data w
  = match nacl_box data (fst (nacl_randomBytes (random w) nacl_box_nonceLength))
            (_theirPk this) (_ourSk this) with
    | Ok c =>
        Returned tt
          (mkWorld
             (mkNetConn
                (Socket.write (_socket (netConn w))
                   (Lpstream.encode
                      (Buffer_from_string
                         (Json.stringify
                            (CryptoComm.envelope c
                               (fst (nacl_randomBytes (random w) nacl_box_nonceLength)))))))
                (_socketDecoder (netConn w)) (on_data (netConn w))
                (on_disconnected (netConn w)))
             (snd (nacl_randomBytes (random w) nacl_box_nonceLength)))
          []
    | Throw e =>
        Thrown e
          (mkWorld (netConn w) (snd (nacl_randomBytes (random w) nacl_box_nonceLength)))
          []
    end.
Proof.
  unfold CryptoComm.send, bind, randomBytes, lift.
  destruct (nacl_randomBytes (random w) nacl_box_nonceLength) as [nonce g].
  cbn [fst snd].
  destruct (nacl_box data nonce (_theirPk this) (_ourSk this)) as [c|e]; reflexivity.
Qed.

Lemma write_one_frame (f : bytes) :
  f <> [] -> Lpstream.write Lpstream.decode (Lpstream.encode f) = (Lpstream.decode, [f]).
Proof.
  intros H. rewrite <- (app_nil_r (Lpstream.encode f)), write_encode.
  destruct f; [congruence|reflexivity].
Qed.

(** C1.  Opening with the peer's keys the box made with one's own gives the
    message back, for every message, every nonce of 24 bytes and every two
    key pairs; and a message sent on a channel bound to (B.pk, A.sk) is
    emitted, byte for byte, by the channel bound to (A.pk, B.sk) that
    receives the bytes written, however they are cut into chunks. *)
Theorem C1_round_trip {E : Externals} {HE : ExternalsOk E}
    (m : bytes) (A B : KeyPair.t) (a b : CryptoComm) (wA wB : World) :
  valid_keyPair A -> valid_keyPair B ->
  _theirPk a = KeyPair.pk B -> _ourSk a = KeyPair.sk A ->
  _theirPk b = KeyPair.pk A -> _ourSk b = KeyPair.sk B ->
  live wA -> channel_world b wB -> live wB -> idle wB ->
  (forall nonce, List.length nonce = nacl_box_nonceLength ->
     exists c,
       nacl_box m nonce (KeyPair.pk B) (KeyPair.sk A) = Ok c /\
       nacl_box_open c nonce (KeyPair.pk A) (KeyPair.sk B) = Ok (Some m)) /\
  exists wire frame,
    thrown_of (CryptoComm.send a m wA) = None /\
    Socket.written (_socket (netConn (world_of (CryptoComm.send a m wA))))
    = Socket.written (_socket (netConn wA)) ++ wire /\
    forall chunks,
      List.concat chunks = wire ->
      run (map socket_data chunks) wB
      = Returned tt wB [NetConn_data frame; CryptoComm_message b (Buf m)].
Proof.
  intros HA HB Ha1 Ha2 Hb1 Hb2 HlA [Hd _] HlB Hi.
  split.
  { intros nonce Hn. apply box_open_box; assumption. }
  pose (nonce := fst (nacl_randomBytes (random wA) nacl_box_nonceLength)).
  destruct (box_open_box m nonce A B HA HB (randomBytes_length _ _)) as (c & Hc & Ho).
  exists (Lpstream.encode (Buffer_from_string (Json.stringify (CryptoComm.envelope c nonce)))).
  exists (Buffer_from_string (Json.stringify (CryptoComm.envelope c nonce))).
  rewrite send_unfold, Ha1, Ha2. fold nonce. rewrite Hc.
  cbn [thrown_of world_of netConn _socket].
  split; [reflexivity|]. split.
  { unfold Socket.write. unfold live in HlA. rewrite HlA. reflexivity. }
  intros chunks Hch.
  rewrite (run_chunks b chunks wB Lpstream.decode
             [Buffer_from_string (Json.stringify (CryptoComm.envelope c nonce))]).
  - unfold idle in Hi. rewrite <- Hi, with_decoder_same.
    cbn [flat_map app]. unfold frame_events.
    rewrite opened_envelope, Hb1, Hb2, Ho. reflexivity.
  - assumption.
  - assumption.
  - rewrite Hch. unfold idle in Hi. rewrite Hi.
    apply write_one_frame, envelope_frame_nonempty.
  - constructor; [|constructor]. exists (Some m).
    rewrite opened_envelope, Hb1, Hb2. exact Ho.
Qed.

Lemma C1_round_trip_witness :
  (forall nonce, List.length nonce = nacl_box_nonceLength ->
     exists c,
       @nacl_box Toy.externals [x68; x69] nonce (KeyPair.pk Toy.B) (KeyPair.sk Toy.A) = Ok c /\
       @nacl_box_open Toy.externals c nonce (KeyPair.pk Toy.A) (KeyPair.sk Toy.B)
       = Ok (Some [x68; x69])) /\
  exists wire frame,
    thrown_of (CryptoComm.send Toy.a [x68; x69] Toy.wA) = None /\
    Socket.written (_socket (netConn (world_of (CryptoComm.send Toy.a [x68; x69] Toy.wA))))
    = Socket.written (_socket (netConn Toy.wA)) ++ wire /\
    forall chunks,
      List.concat chunks = wire ->
      run (map socket_data chunks) Toy.wB
      = Returned tt Toy.wB [NetConn_data frame; CryptoComm_message Toy.b (Buf [x68; x69])].
Proof.
  apply (@C1_round_trip Toy.externals toy_ok [x68; x69] Toy.A Toy.B Toy.a Toy.b Toy.wA Toy.wB).
  - split; reflexivity.
  - split; reflexivity.
  - reflexivity.
  - reflexivity.
  - reflexivity.
  - reflexivity.
  - reflexivity.
  - split; reflexivity.
  - reflexivity.
  - reflexivity.
Defined.

(** ** Runs *)

Lemma run_app {E : Externals} (xs ys : list input) (w : World) :
  run (xs ++ ys) w = bind (run xs) (fun _ => run ys) w.
Proof.
  unfold run. revert w. induction xs as [|x xs IH]; intros w.
  - cbn [app for_each]. unfold bind, ret.
    destruct (for_each react ys w); reflexivity.
  - cbn [app for_each]. unfold bind.
    destruct (react x w) as [[] w1 ev1|e w1 ev1]; [|reflexivity].
    specialize (IH w1). unfold bind in IH. rewrite IH.
    destruct (for_each react xs w1) as [[] w2 ev2|e w2 ev2]; [|reflexivity].
    destruct (for_each react ys w2) as [[] w3 ev3|e w3 ev3];
      rewrite ?app_assoc; reflexivity.
Qed.

Lemma opened_well_formed {E : Externals} (this : CryptoComm) (data c nonce : bytes) :
  well_formed_envelope data c nonce ->
  opened this data = nacl_box_open c nonce (_theirPk this) (_ourSk this).
Proof.
  intros (v & ds & ns & Hp & Hd & Hn & <- & <-).
  unfold opened. rewrite Hp, Hd, Hn. reflexivity.
Qed.

Lemma parsed_nonempty (data : bytes) (v : Json.json) :
  Json.parse (Buffer_toString data) = Ok v -> data <> [].
Proof. intros H ->. discriminate H. Qed.

(** A well-formed envelope whose box does not open is dropped: the
    handler returns without a message event and without an error and leaves
    the world, the socket with it, as it was; and whatever comes after the
    frame, however its bytes arrive, is handled as if the frame had never
    come, its ['data'] event on the connection apart. *)
Lemma failed_open_is_dropped {E : Externals}
    (this : CryptoComm) (data c nonce : bytes) (w : World)
    (chunks : list bytes) (rest : list input) :
  well_formed_envelope data c nonce ->
  nacl_box_open c nonce (_theirPk this) (_ourSk this) = Ok None ->
  channel_world this w -> live w -> idle w ->
  List.concat chunks = Lpstream.encode data ->
  CryptoComm._onData this data w = Returned tt w [] /\
  run (map socket_data chunks) w = Returned tt w [NetConn_data data] /\
  thrown_of (run (map socket_data chunks ++ rest) w) = thrown_of (run rest w) /\
  world_of (run (map socket_data chunks ++ rest) w) = world_of (run rest w) /\
  emitted_of (run (map socket_data chunks ++ rest) w)
  = NetConn_data data :: emitted_of (run rest w).
Proof.
  intros Hwf Hnull [Hd _] Hl Hi Hch.
  assert (Ho : opened this data = Ok None).
  { rewrite (opened_well_formed this data c nonce) by assumption. exact Hnull. }
  assert (Hne : data <> []).
  { destruct Hwf as (v & _ & _ & Hp & _). exact (parsed_nonempty data v Hp). }
  assert (Hrun : run (map socket_data chunks) w = Returned tt w [NetConn_data data]).
  { rewrite (run_chunks this chunks w Lpstream.decode [data]).
    - unfold idle in Hi. rewrite <- Hi, with_decoder_same.
      cbn [flat_map app]. unfold frame_events. rewrite Ho. reflexivity.
    - assumption.
    - assumption.
    - rewrite Hch. unfold idle in Hi. rewrite Hi. apply write_one_frame, Hne.
    - constructor; [|constructor]. exists None. exact Ho. }
  split; [rewrite onData_opened, Ho; reflexivity|].
  split; [exact Hrun|].
  rewrite run_app. unfold bind. rewrite Hrun.
  destruct (run rest w) as [[] w1 ev1|e w1 ev1]; repeat split; reflexivity.
Qed.

(** ** Frames that are no envelopes *)

Lemma parse_throws_SyntaxError (text : string) (e : js_error) :
  Json.parse text = Throw e -> name e = "SyntaxError".
Proof.
  unfold Json.parse. intros H.
  destruct (Json.value (S (String.length text)) text) as [[v rest]|].
  - destruct (Json.skip_ws rest); [discriminate|]. injection H as <-. reflexivity.
  - injection H as <-. reflexivity.
Qed.

Lemma Buffer_from_undefined {E : Externals} :
  exists e, Buffer_from_base64 None = Throw e /\ name e = "TypeError".
Proof. eexists. split; reflexivity. Qed.

Lemma opened_lacks_field {E : Externals} (this : CryptoComm) (data : bytes) (v : Json.json) :
  Json.parse (Buffer_toString data) = Ok v -> lacks_field v ->
  exists e, opened this data = Throw e.
Proof.
  intros Hp H. unfold opened. rewrite Hp.
  destruct H as [-> | [H | H]].
  - eexists. reflexivity.
  - rewrite H. eexists. reflexivity.
  - destruct (Json.get v "data") as [d|e]; [|eexists; reflexivity].
    destruct (Buffer_from_base64 d) as [c|e]; [|eexists; reflexivity].
    rewrite H. eexists. reflexivity.
Qed.

(** C3, as the code has it.  A frame whose text does not parse makes the
    handler throw the [SyntaxError] of [JSON.parse]; a frame that parses to
    [null] or to a value without [data], or with a string [data] and
    without [nonce], makes it throw a [TypeError]; a frame without one of
    the two fields makes it throw in every case.  No message event is
    emitted, and the world is left as it was: the handler closes nothing,
    the error leaves the module uncaught. *)
Theorem C3_malformed_frame_is_thrown {E : Externals}
    (this : CryptoComm) (data : bytes) (w : World) :
  channel_world this w ->
  malformed data ->
  exists e,
    CryptoComm._onData this data w = Thrown e w [] /\
    Emitter.emit_data data w = Thrown e w [NetConn_data data] /\
    (forall e', Json.parse (Buffer_toString data) = Throw e' ->
       e = e' /\ name e = "SyntaxError") /\
    (forall v, Json.parse (Buffer_toString data) = Ok v ->
       v = Json.JNull \/ Json.get v "data" = Ok None ->
       name e = "TypeError") /\
    (forall v ds, Json.parse (Buffer_toString data) = Ok v ->
       Json.get v "data" = Ok (Some (Json.JString ds)) ->
       Json.get v "nonce" = Ok None ->
       name e = "TypeError").
Proof.
  intros [Hd _] Hm.
  assert (Ho : exists e, opened this data = Throw e).
  { destruct Hm as [[e He] | (v & Hp & Hl)].
    - exists e. unfold opened. rewrite He. reflexivity.
    - exact (opened_lacks_field this data v Hp Hl). }
  destruct Ho as [e Ho]. exists e.
  split; [rewrite onData_opened, Ho; reflexivity|].
  split; [rewrite (emit_data_channel this) by assumption; rewrite Ho; reflexivity|].
  unfold opened in Ho. repeat split.
  - rewrite H in Ho. injection Ho as ->. reflexivity.
  - rewrite H in Ho. injection Ho as ->. exact (parse_throws_SyntaxError _ _ H).
  - intros v Hp Hv. rewrite Hp in Ho. destruct Hv as [-> | Hv].
    + injection Ho as <-. reflexivity.
    + rewrite Hv in Ho. injection Ho as <-. reflexivity.
  - intros v ds Hp H1 H2. rewrite Hp, H1 in Ho. cbn [Buffer_from_base64] in Ho.
    rewrite H2 in Ho. injection Ho as <-. reflexivity.
Qed.

Lemma C3_malformed_frame_is_thrown_witness :
  exists e,
    CryptoComm._onData Toy.b [x7b; x7d] Toy.wB = Thrown e Toy.wB [] /\
    Emitter.emit_data [x7b; x7d] Toy.wB = Thrown e Toy.wB [NetConn_data [x7b; x7d]] /\
    (forall e', Json.parse (Buffer_toString [x7b; x7d]) = Throw e' ->
       e = e' /\ name e = "SyntaxError") /\
    (forall v, Json.parse (Buffer_toString [x7b; x7d]) = Ok v ->
       v = Json.JNull \/ Json.get v "data" = Ok None ->
       name e = "TypeError") /\
    (forall v ds, Json.parse (Buffer_toString [x7b; x7d]) = Ok v ->
       Json.get v "data" = Ok (Some (Json.JString ds)) ->
       Json.get v "nonce" = Ok None ->
       name e = "TypeError").
Proof.
  apply (@C3_malformed_frame_is_thrown Toy.externals Toy.b [x7b; x7d] Toy.wB).
  - split; reflexivity.
  - right. exists (Json.JObject []). split; [reflexivity|].
    right. left. reflexivity.
Defined.

(** C3, as the spec has it, fails on the frame [x]: the error thrown is a
    [SyntaxError], and the socket is not destroyed. *)
Lemma C3_counterexample :
  thrown_of (run [socket_data (Lpstream.encode [x78])] Toy.wB)
  = Some (SyntaxError "Unexpected token in JSON") /\
  Socket.destroyed
    (_socket (netConn (world_of (run [socket_data (Lpstream.encode [x78])] Toy.wB))))
  = false /\
  ~ closes_with "ProtocolError" (run [socket_data (Lpstream.encode [x78])] Toy.wB).
Proof.
  split; [vm_compute; reflexivity|]. split; [vm_compute; reflexivity|].
  intros [_ H]. vm_compute in H. discriminate H.
Qed.

(** ** The two listings *)

(** C10.  The receive handlers of the two listings do not deliver the same
    ['message'] events.  They throw alike.  On a frame whose box does not
    open the first listing returns at its guard and emits nothing, where
    the second, which has no guard, emits a ['message'] with [null].  On a
    frame that opens the first listing emits a [Buffer] made from the
    plaintext, where the second emits the [Uint8Array] of [nacl.box.open]
    itself, with the same bytes. *)
Theorem C10_listings_differ {E : Externals}
    (this : CryptoComm) (data : bytes) (w : World) :
  match opened this data with
  | Throw e =>
      CryptoComm._onData this data w = Thrown e w [] /\
      Listing2._onData this data w = Thrown e w []
  | Ok None =>
      CryptoComm._onData this data w = Returned tt w [] /\
      Listing2._onData this data w = Returned tt w [CryptoComm_message this Null]
  | Ok (Some m) =>
      CryptoComm._onData this data w
      = Returned tt w [CryptoComm_message this (Buf m)] /\
      Listing2._onData this data w
      = Returned tt w [CryptoComm_message this (Uint8Array m)]
  end.
Proof.
  rewrite onData_opened, onData2_opened.
  destruct (opened this data) as [[m|]|e]; split; reflexivity.
Qed.

(** The two handlers on a well-formed envelope whose box does not open *)
Lemma C10_listings_differ_witness :
  CryptoComm._onData Toy.b Toy.forged Toy.wB = Returned tt Toy.wB [] /\
  Listing2._onData Toy.b Toy.forged Toy.wB
  = Returned tt Toy.wB [CryptoComm_message Toy.b Null].
Proof.
  generalize (@C10_listings_differ Toy.externals Toy.b Toy.forged Toy.wB).
  replace (@opened Toy.externals Toy.b Toy.forged) with (@Ok (option bytes) None)
    by (vm_compute; reflexivity).
  exact (fun H => H).
Defined.

(** ** Sending *)

(** C4.  [send] draws 24 bytes from [nacl.randomBytes], boxes the message
    with them under the channel's two keys, and hands the connection one
    frame: the text of the object whose [data] and [nonce] are the base64
    of the box and of the nonce.  The bytes written decode to that one
    frame, the frame reads back as that object, and its two fields decode
    to the box and the nonce.  When [nacl.box] throws, [send] throws and
    nothing is written. *)
Theorem C4_send_steps {E : Externals} {HE : ExternalsOk E}
    (this : CryptoComm) (m : bytes) (w : World) :
  live w ->
  let nonce := fst (nacl_randomBytes (random w) nacl_box_nonceLength) in
  let g := snd (nacl_randomBytes (random w) nacl_box_nonceLength) in
  List.length nonce = 24 /\
  match nacl_box m nonce (_theirPk this) (_ourSk this) with
  | Ok ciphertext =>
      let object :=
        Json.JObject [("data", Json.JString (Base64.encode ciphertext));
                      ("nonce", Json.JString (Base64.encode nonce))] in
      let frame := Buffer_from_string (Json.stringify object) in
      CryptoComm.send this m w
      = Returned tt
          (mkWorld
             (mkNetConn
                (Socket.mk false (Socket.closed (_socket (netConn w)))
                   (Socket.written (_socket (netConn w)) ++ Lpstream.encode frame))
                (_socketDecoder (netConn w)) (on_data (netConn w))
                (on_disconnected (netConn w)))
             g)
          [] /\
      Lpstream.write Lpstream.decode (Lpstream.encode frame) = (Lpstream.decode, [frame]) /\
      Json.parse (Buffer_toString frame) = Ok object /\
      Base64.decode (Base64.encode ciphertext) = ciphertext /\
      Base64.decode (Base64.encode nonce) = nonce
  | Throw e => CryptoComm.send this m w = Thrown e (mkWorld (netConn w) g) []
  end.
Proof.
  intros Hl nonce g. split; [apply randomBytes_length|].
  rewrite send_unfold. fold nonce g.
  destruct (nacl_box m nonce (_theirPk this) (_ourSk this)) as [c|e]; [|reflexivity].
  cbv zeta. fold (CryptoComm.envelope c nonce).
  split.
  { unfold Socket.write. unfold live in Hl. rewrite Hl. reflexivity. }
  split; [apply write_one_frame, envelope_frame_nonempty|].
  split.
  { unfold Buffer_toString, Buffer_from_string, CryptoComm.envelope.
    rewrite string_of_list_byte_of_string.
    apply parse_stringify_envelope; apply encode_plain. }
  split; apply decode_encode.
Qed.

Lemma C4_send_steps_witness :
  let nonce := fst (@nacl_randomBytes Toy.externals (random Toy.wA) nacl_box_nonceLength) in
  let g := snd (@nacl_randomBytes Toy.externals (random Toy.wA) nacl_box_nonceLength) in
  List.length nonce = 24 /\
  match @nacl_box Toy.externals [x68; x69] nonce (_theirPk Toy.a) (_ourSk Toy.a) with
  | Ok ciphertext =>
      let object :=
        Json.JObject [("data", Json.JString (Base64.encode ciphertext));
                      ("nonce", Json.JString (Base64.encode nonce))] in
      let frame := Buffer_from_string (Json.stringify object) in
      CryptoComm.send Toy.a [x68; x69] Toy.wA
      = Returned tt
          (mkWorld
             (mkNetConn
                (Socket.mk false (Socket.closed (_socket (netConn Toy.wA)))
                   (Socket.written (_socket (netConn Toy.wA)) ++ Lpstream.encode frame))
                (_socketDecoder (netConn Toy.wA)) (on_data (netConn Toy.wA))
                (on_disconnected (netConn Toy.wA)))
             g)
          [] /\
      Lpstream.write Lpstream.decode (Lpstream.encode frame) = (Lpstream.decode, [frame]) /\
      Json.parse (Buffer_toString frame) = Ok object /\
      Base64.decode (Base64.encode ciphertext) = ciphertext /\
      Base64.decode (Base64.encode nonce) = nonce
  | Throw e => CryptoComm.send Toy.a [x68; x69] Toy.wA = Thrown e (mkWorld (netConn Toy.wA) g) []
  end.
Proof.
  apply (@C4_send_steps Toy.externals toy_ok Toy.a [x68; x69] Toy.wA).
  reflexivity.
Defined.

(** ** The handshake *)

Lemma data_listener_eqb_refl (l : data_listener) : Emitter.data_listener_eqb l l = true.
Proof.
  destruct l; cbn [Emitter.data_listener_eqb]; rewrite !bytes_eqb_refl; reflexivity.
Qed.

Lemma emit_data_accepted {E : Externals} (keyPair : KeyPair.t) (data : bytes) (w : World) :
  accepted_world keyPair w ->
  Emitter.emit_data data w
  = Returned tt
      (with_listeners w
         [(false, comm_data (mkCryptoComm data data (KeyPair.sk keyPair)))]
         [comm_disconnected (mkCryptoComm data data (KeyPair.sk keyPair))])
      [NetConn_data data;
       TrannyServer_client (mkCryptoComm data data (KeyPair.sk keyPair))].
Proof.
  intros [H1 H2]. destruct w as [[s d l1 l2] g]. cbn in H1, H2. subst l1 l2.
  unfold Emitter.emit_data, bind, emit, get_netConn.
  cbn [netConn on_data Emitter.call_data_listeners].
  unfold bind, Emitter.removeListener, bind, get_netConn, set_netConn.
  cbn [netConn on_data Emitter.remove_once random _socket _socketDecoder on_disconnected].
  rewrite data_listener_eqb_refl. cbn [andb].
  reflexivity.
Qed.

Lemma run_cons {E : Externals} (i : input) (inputs : list input) (w : World) :
  run (i :: inputs) w = bind (react i) (fun _ => run inputs) w.
Proof. reflexivity. Qed.

Lemma react_socket_data {E : Externals} (chunk : bytes) (w : World)
    (d : Lpstream.Decoder) (fs : list bytes) :
  live w ->
  Lpstream.write (_socketDecoder (netConn w)) chunk = (d, fs) ->
  react (socket_data chunk) w = for_each Emitter.emit_data fs (with_decoder w d).
Proof.
  intros Hl Hd. unfold react, bind, get_netConn.
  unfold live in Hl. rewrite Hl, Hd. unfold bind, set_netConn.
  fold (with_decoder w d).
  destruct (for_each Emitter.emit_data fs (with_decoder w d)); reflexivity.
Qed.

Lemma run_chunks_silent {E : Externals} (chunks : list bytes) :
  forall (w : World) (d : Lpstream.Decoder),
    live w ->
    Lpstream.write (_socketDecoder (netConn w)) (List.concat chunks) = (d, []) ->
    run (map socket_data chunks) w = Returned tt (with_decoder w d) [].
Proof.
  induction chunks as [|c cs IH]; intros w d Hl Hd.
  - cbn in Hd. injection Hd as <-. cbn. unfold ret.
    rewrite with_decoder_same. reflexivity.
  - cbn [List.concat] in Hd. rewrite write_app in Hd.
    destruct (Lpstream.write (_socketDecoder (netConn w)) c) as [d1 fs1] eqn:E1.
    destruct (Lpstream.write d1 (List.concat cs)) as [d2 fs2] eqn:E2.
    injection Hd as <- Hfs. apply app_eq_nil in Hfs as [-> ->].
    cbn [map]. rewrite run_cons. unfold bind.
    rewrite (react_socket_data c w d1 []) by assumption.
    cbn [for_each]. unfold ret.
    rewrite (IH (with_decoder w d1) d2) by assumption. reflexivity.
Qed.

Lemma run_chunks_first_frame {E : Externals} (keyPair : KeyPair.t) (data : bytes)
    (chunks : list bytes) :
  forall (w : World) (d : Lpstream.Decoder),
    accepted_world keyPair w ->
    live w ->
    Lpstream.write (_socketDecoder (netConn w)) (List.concat chunks) = (d, [data]) ->
    run (map socket_data chunks) w
    = Returned tt
        (with_listeners (with_decoder w d)
           [(false, comm_data (mkCryptoComm data data (KeyPair.sk keyPair)))]
           [comm_disconnected (mkCryptoComm data data (KeyPair.sk keyPair))])
        [NetConn_data data;
         TrannyServer_client (mkCryptoComm data data (KeyPair.sk keyPair))].
Proof.
  induction chunks as [|c cs IH]; intros w d Ha Hl Hd.
  - cbn in Hd. discriminate Hd.
  - cbn [List.concat] in Hd. rewrite write_app in Hd.
    destruct (Lpstream.write (_socketDecoder (netConn w)) c) as [d1 fs1] eqn:E1.
    destruct (Lpstream.write d1 (List.concat cs)) as [d2 fs2] eqn:E2.
    injection Hd as <- Hfs.
    cbn [map]. rewrite run_cons. unfold bind.
    rewrite (react_socket_data c w d1 fs1) by assumption.
    destruct fs1 as [|f1 fs1].
    + cbn [app] in Hfs. subst fs2. cbn [for_each]. unfold ret.
      rewrite (IH (with_decoder w d1) d2) by assumption. reflexivity.
    + injection Hfs as -> Hfs. apply app_eq_nil in Hfs as [-> ->].
      cbn [for_each]. unfold bind, ret.
      rewrite (emit_data_accepted keyPair) by exact Ha.
      rewrite (run_chunks_silent cs _ d2) by assumption.
      reflexivity.
Qed.

(** ** What the handlers leave of the socket *)

Lemma call_data_listener_socket {E : Externals} (l : data_listener) (data : bytes) (w : World) :
  _socket (netConn (world_of (Emitter.call_data_listener l data w))) = _socket (netConn w).
Proof.
  destruct l as [keyPair|this]; cbn [Emitter.call_data_listener].
  - reflexivity.
  - rewrite onData_opened. destruct (opened this data) as [[m|]|e]; reflexivity.
Qed.

Lemma call_data_listeners_socket {E : Externals} (ls : list (bool * data_listener))
    (data : bytes) (w : World) :
  _socket (netConn (world_of (Emitter.call_data_listeners ls data w))) = _socket (netConn w).
Proof.
  revert w. induction ls as [|[once l] ls IH]; intros w; [reflexivity|].
  cbn [Emitter.call_data_listeners]. unfold bind at 1.
  assert (Hr : exists w1,
             (if once then Emitter.removeListener l else ret tt) w = Returned tt w1 []
             /\ _socket (netConn w1) = _socket (netConn w)).
  { destruct once; eexists; split; reflexivity. }
  destruct Hr as (w1 & -> & H1). unfold bind.
  pose proof (call_data_listener_socket l data w1) as H2.
  destruct (Emitter.call_data_listener l data w1) as [[] w2 ev2|e w2 ev2];
    cbn [world_of] in H2.
  - specialize (IH w2).
    destruct (Emitter.call_data_listeners ls data w2) as [[] w3 ev3|e w3 ev3];
      cbn [world_of] in IH |- *; congruence.
  - cbn [world_of]. congruence.
Qed.

Lemma emit_data_socket {E : Externals} (data : bytes) (w : World) :
  _socket (netConn (world_of (Emitter.emit_data data w))) = _socket (netConn w).
Proof.
  unfold Emitter.emit_data, bind, emit, get_netConn.
  pose proof (call_data_listeners_socket (on_data (netConn w)) data w) as H.
  destruct (Emitter.call_data_listeners (on_data (netConn w)) data w); exact H.
Qed.

Lemma for_each_emit_data_socket {E : Externals} (fs : list bytes) (w : World) :
  _socket (netConn (world_of (for_each Emitter.emit_data fs w))) = _socket (netConn w).
Proof.
  revert w. induction fs as [|f fs IH]; intros w; [reflexivity|].
  cbn [for_each]. unfold bind.
  pose proof (emit_data_socket f w) as H1.
  destruct (Emitter.emit_data f w) as [[] w1 ev1|e w1 ev1]; cbn [world_of] in H1.
  - specialize (IH w1).
    destruct (for_each Emitter.emit_data fs w1); cbn [world_of] in IH |- *; congruence.
  - exact H1.
Qed.

Lemma emit_disconnected_world {E : Externals} (w : World) :
  world_of (Emitter.emit_disconnected w) = w /\ thrown_of (Emitter.emit_disconnected w) = None.
Proof.
  unfold Emitter.emit_disconnected, bind, emit, get_netConn.
  assert (H : forall ls, exists ev,
             for_each Emitter.call_disconnected_listener ls w = Returned tt w ev).
  { induction ls as [|[this] ls [ev IH]].
    - eexists. reflexivity.
    - cbn [for_each Emitter.call_disconnected_listener]. unfold bind, emit.
      rewrite IH. eexists. reflexivity. }
  destruct (H (on_disconnected (netConn w))) as [ev ->]. split; reflexivity.
Qed.

Lemma react_written {E : Externals} (i : input) (w : World) :
  exists rest,
    Socket.written (_socket (netConn (world_of (react i w))))
    = Socket.written (_socket (netConn w)) ++ rest.
Proof.
  destruct i as [chunk| |e|comm data|comm].
  - exists []. rewrite app_nil_r. unfold react, bind, get_netConn.
    destruct (Socket.destroyed (_socket (netConn w))); [reflexivity|].
    destruct (Lpstream.write (_socketDecoder (netConn w)) chunk) as [d fs].
    unfold bind, set_netConn.
    pose proof (for_each_emit_data_socket fs (with_decoder w d)) as H.
    unfold with_decoder in H.
    destruct (for_each Emitter.emit_data fs _); cbn [world_of] in H |- *;
      rewrite H; reflexivity.
  - exists []. rewrite app_nil_r. unfold react, bind, get_netConn.
    destruct (Socket.closed (_socket (netConn w))); [reflexivity|].
    unfold bind, set_netConn.
    match goal with |- context [Emitter.emit_disconnected ?w1] =>
      destruct (emit_disconnected_world w1) as [H _];
      destruct (Emitter.emit_disconnected w1); cbn [world_of] in H |- *;
      rewrite H; reflexivity
    end.
  - exists []. rewrite app_nil_r. reflexivity.
  - cbn [react]. rewrite send_unfold.
    destruct (nacl_box data _ (_theirPk comm) (_ourSk comm)) as [c|e].
    + cbn [world_of netConn _socket]. unfold Socket.write.
      destruct (Socket.destroyed (_socket (netConn w))).
      * exists []. rewrite app_nil_r. reflexivity.
      * eexists. reflexivity.
    + exists []. rewrite app_nil_r. reflexivity.
  - exists []. rewrite app_nil_r. reflexivity.
Qed.

Lemma run_written {E : Externals} (inputs : list input) (w : World) :
  exists rest,
    Socket.written (_socket (netConn (world_of (run inputs w))))
    = Socket.written (_socket (netConn w)) ++ rest.
Proof.
  revert w. induction inputs as [|i inputs IH]; intros w.
  - exists []. rewrite app_nil_r. reflexivity.
  - rewrite run_cons. unfold bind.
    destruct (react_written i w) as [r1 H1].
    destruct (react i w) as [[] w1 ev1|e w1 ev1]; cbn [world_of] in H1.
    + destruct (IH w1) as [r2 H2].
      exists (r1 ++ r2). rewrite app_assoc, <- H1.
      destruct (run inputs w1); exact H2.
    + exists r1. exact H1.
Qed.

Lemma emit_data_to_channel {E : Externals} (this : CryptoComm) (data : bytes) (w : World) :
  on_data (netConn w) = [(false, comm_data this)] ->
  Emitter.emit_data data w
  = bind (emit (NetConn_data data)) (fun _ => CryptoComm._onData this data) w.
Proof.
  intros H. rewrite (emit_data_channel this) by assumption.
  unfold bind, emit. rewrite onData_opened.
  destruct (opened this data) as [[m|]|e]; reflexivity.
Qed.

(** C5.  The initiator's constructor writes its public key, framed and
    otherwise as it is, before anything else, and every later write comes
    after it; the responder makes of the first frame of an accepted
    connection, and of it alone, the public key of the channel it emits, and
    hands every later frame to that channel's handler. *)
Theorem C5_handshake {E : Externals}
    (keyPairA keyPairB : KeyPair.t) (theirPk : bytes) (gA gB : Rng)
    (chunks : list bytes) :
  KeyPair.pk keyPairA <> [] ->
  List.concat chunks = Lpstream.encode (KeyPair.pk keyPairA) ->
  let client := TrannyClient.constructor keyPairA theirPk gA in
  let comm := mkCryptoComm (KeyPair.pk keyPairA) (KeyPair.pk keyPairA) (KeyPair.sk keyPairB) in
  (exists wC,
     client = Returned (mkCryptoComm theirPk theirPk (KeyPair.sk keyPairA)) wC [] /\
     channel_world (mkCryptoComm theirPk theirPk (KeyPair.sk keyPairA)) wC /\
     Socket.written (_socket (netConn wC)) = Lpstream.encode (KeyPair.pk keyPairA) /\
     forall inputs, exists rest,
       Socket.written (_socket (netConn (world_of (run inputs wC))))
       = Lpstream.encode (KeyPair.pk keyPairA) ++ rest) /\
  (exists wS,
     run (map socket_data chunks) (TrannyServer.connection keyPairB Socket.fresh gB)
     = Returned tt wS [NetConn_data (KeyPair.pk keyPairA); TrannyServer_client comm] /\
     channel_world comm wS /\ live wS /\ idle wS /\
     forall data,
       Emitter.emit_data data wS
       = bind (emit (NetConn_data data)) (fun _ => CryptoComm._onData comm data) wS).
Proof.
  intros Hne Hch client comm. split.
  - eexists. split; [reflexivity|]. split; [split; reflexivity|].
    split; [reflexivity|]. intros inputs.
    match goal with |- context [run inputs ?w] =>
      destruct (run_written inputs w) as [rest H]
    end.
    exists rest. exact H.
  - eexists. split.
    + apply (run_chunks_first_frame keyPairB (KeyPair.pk keyPairA) chunks
               (TrannyServer.connection keyPairB Socket.fresh gB) Lpstream.decode).
      * split; reflexivity.
      * reflexivity.
      * rewrite Hch. apply write_one_frame, Hne.
    + split; [split; reflexivity|]. split; [reflexivity|]. split; [reflexivity|].
      intros data. apply emit_data_to_channel. reflexivity.
Qed.

Lemma C5_handshake_witness :
  let client := @TrannyClient.constructor Toy.externals Toy.A (KeyPair.pk Toy.B) 7%N in
  let comm := mkCryptoComm (KeyPair.pk Toy.A) (KeyPair.pk Toy.A) (KeyPair.sk Toy.B) in
  (exists wC,
     client = Returned (mkCryptoComm (KeyPair.pk Toy.B) (KeyPair.pk Toy.B) (KeyPair.sk Toy.A)) wC [] /\
     channel_world (mkCryptoComm (KeyPair.pk Toy.B) (KeyPair.pk Toy.B) (KeyPair.sk Toy.A)) wC /\
     Socket.written (_socket (netConn wC)) = Lpstream.encode (KeyPair.pk Toy.A) /\
     forall inputs, exists rest,
       Socket.written (_socket (netConn (world_of (run inputs wC))))
       = Lpstream.encode (KeyPair.pk Toy.A) ++ rest) /\
  (exists wS,
     run (map socket_data [Lpstream.encode (KeyPair.pk Toy.A)])
       (@TrannyServer.connection Toy.externals Toy.B Socket.fresh 9%N)
     = Returned tt wS [NetConn_data (KeyPair.pk Toy.A); TrannyServer_client comm] /\
     channel_world comm wS /\ live wS /\ idle wS /\
     forall data,
       Emitter.emit_data data wS
       = bind (emit (NetConn_data data)) (fun _ => CryptoComm._onData comm data) wS).
Proof.
  apply (@C5_handshake Toy.externals Toy.A Toy.B (KeyPair.pk Toy.B) 7%N 9%N
           [Lpstream.encode (KeyPair.pk Toy.A)]).
  - discriminate.
  - vm_compute. reflexivity.
Defined.

(** C6, as the code has it.  The responder checks nothing of the first
    frame: whatever its length, the frame becomes the public key of the
    one channel emitted, no error is thrown and the socket is left as it
    was. *)
Theorem C6_first_frame_unchecked {E : Externals}
    (keyPair : KeyPair.t) (socket : Socket.t) (g : Rng) (data : bytes)
    (chunks : list bytes) :
  data <> [] ->
  Socket.destroyed socket = false ->
  List.concat chunks = Lpstream.encode data ->
  let comm := mkCryptoComm data data (KeyPair.sk keyPair) in
  exists w,
    run (map socket_data chunks) (TrannyServer.connection keyPair socket g)
    = Returned tt w [NetConn_data data; TrannyServer_client comm] /\
    _socket (netConn w) = socket /\
    channel_world comm w.
Proof.
  intros Hne Hs Hch comm. eexists. split.
  - apply (run_chunks_first_frame keyPair data chunks
             (TrannyServer.connection keyPair socket g) Lpstream.decode).
    + split; reflexivity.
    + exact Hs.
    + rewrite Hch. apply write_one_frame, Hne.
  - split; [reflexivity|]. split; reflexivity.
Qed.

Lemma C6_first_frame_unchecked_witness :
  let comm := mkCryptoComm [x01] [x01] (KeyPair.sk Toy.B) in
  exists w,
    run (map socket_data [Lpstream.encode [x01]])
      (@TrannyServer.connection Toy.externals Toy.B Socket.fresh 9%N)
    = Returned tt w [NetConn_data [x01]; TrannyServer_client comm] /\
    _socket (netConn w) = Socket.fresh /\
    channel_world comm w.
Proof.
  apply (@C6_first_frame_unchecked Toy.externals Toy.B Socket.fresh 9%N [x01]
           [Lpstream.encode [x01]]).
  - discriminate.
  - reflexivity.
  - vm_compute. reflexivity.
Defined.

(** C6, as the spec has it, fails on a first frame of one byte: a channel
    bound to that byte is emitted, nothing is thrown and the socket is not
    destroyed. *)
Lemma C6_counterexample :
  List.length [x01] <> nacl_box_keyLength /\
  run [socket_data (Lpstream.encode [x01])]
    (@TrannyServer.connection Toy.externals Toy.B Socket.fresh 9%N)
  = Returned tt
      (with_listeners (@TrannyServer.connection Toy.externals Toy.B Socket.fresh 9%N)
         [(false, comm_data (mkCryptoComm [x01] [x01] (KeyPair.sk Toy.B)))]
         [comm_disconnected (mkCryptoComm [x01] [x01] (KeyPair.sk Toy.B))])
      [NetConn_data [x01];
       TrannyServer_client (mkCryptoComm [x01] [x01] (KeyPair.sk Toy.B))] /\
  ~ closes_with "ProtocolError"
      (run [socket_data (Lpstream.encode [x01])]
         (@TrannyServer.connection Toy.externals Toy.B Socket.fresh 9%N)).
Proof.
  split; [discriminate|]. split; [vm_compute; reflexivity|].
  intros [[e [H _]] _]. vm_compute in H. discriminate H.
Qed.

(** ** Frames of any length *)

Lemma write_varint (n : N) :
  Lpstream.write Lpstream.decode (Lpstream.varint_encode n)
  = (Lpstream.mkDecoder [] n [], []).
Proof.
  unfold Lpstream.decode, Lpstream.varint_encode.
  rewrite <- (app_nil_r (Lpstream.varint_go _ n)).
  rewrite write_prefix by (rewrite N2Nat.id; apply N.size_gt).
  cbn [app Lpstream.write]. fold (Lpstream.varint_encode n).
  rewrite varint_decode_encode. reflexivity.
Qed.

Lemma for_each_one {E : Externals} {A} (f : A -> M unit) (x : A) (w : World) :
  for_each f [x] w = f x w.
Proof.
  cbn [for_each]. unfold bind, ret.
  destruct (f x w) as [[] w1 ev|e w1 ev]; rewrite ?app_nil_r; reflexivity.
Qed.

(** Payload bytes short of the claimed length are kept, and nothing is
    pushed. *)
Lemma write_part (part : bytes) :
  forall (n : N) (acc : bytes),
    (N.of_nat (List.length part) < n)%N ->
    Lpstream.write (Lpstream.mkDecoder [] n acc) part
    = (Lpstream.mkDecoder [] (n - N.of_nat (List.length part)) (acc ++ part), []).
Proof.
  induction part as [|b part IH]; intros n acc Hn.
  - cbn [List.length Lpstream.write]. rewrite N.sub_0_r, app_nil_r. reflexivity.
  - rewrite write_cons. unfold Lpstream.step.
    cbn [Lpstream._missing Lpstream._message].
    cbn [List.length] in Hn.
    replace (n =? 0)%N with false by (symmetry; apply N.eqb_neq; lia).
    replace (n =? 1)%N with false by (symmetry; apply N.eqb_neq; lia).
    rewrite IH by lia. rewrite <- app_assoc. cbn [app].
    replace (n - 1 - N.of_nat (List.length part))%N
      with (n - N.of_nat (S (List.length part)))%N by lia.
    reflexivity.
Qed.

Lemma write_claimed (n : N) (part : bytes) :
  (N.of_nat (List.length part) < n)%N ->
  Lpstream.write Lpstream.decode (Lpstream.varint_encode n ++ part)
  = (Lpstream.mkDecoder [] (n - N.of_nat (List.length part)) part, []).
Proof.
  intros Hn. unfold Lpstream.decode, Lpstream.varint_encode.
  rewrite write_prefix by (rewrite N2Nat.id; apply N.size_gt).
  cbn [app]. fold (Lpstream.varint_encode n).
  rewrite varint_decode_encode. apply (write_part part n []). exact Hn.
Qed.

(** C7, as the code has it.  The decoder is made without a limit and the
    connection has none of its own, and nothing in the module is a
    [FramingError].  A prefix that claims a length a [Buffer] can have is
    taken, and the payload bytes that come are kept while they are fewer
    than claimed: nothing is emitted, nothing is thrown, the socket is left
    alone and the decoder waits for the rest.  A whole frame of such a
    length is emitted as the connection's ['data']. *)
Theorem C7_no_frame_limit {E : Externals} (w : World) :
  live w -> idle w ->
  (forall n part,
     (n <= Lpstream.max_length)%N ->
     (N.of_nat (List.length part) < n)%N ->
     react (socket_data (Lpstream.varint_encode n ++ part)) w
     = Returned tt
         (with_decoder w
            (Lpstream.mkDecoder [] (n - N.of_nat (List.length part)) part))
         []) /\
  (forall frame,
     frame <> [] ->
     (N.of_nat (List.length frame) <= Lpstream.max_length)%N ->
     react (socket_data (Lpstream.encode frame)) w = Emitter.emit_data frame w).
Proof.
  intros Hl Hi. unfold idle in Hi. split.
  - intros n part _ Hn.
    rewrite (react_socket_data _ w
               (Lpstream.mkDecoder [] (n - N.of_nat (List.length part)) part) []).
    + reflexivity.
    + exact Hl.
    + rewrite Hi. apply write_claimed, Hn.
  - intros frame Hne _.
    rewrite (react_socket_data _ w Lpstream.decode [frame]).
    + rewrite <- Hi, with_decoder_same. apply for_each_one.
    + exact Hl.
    + rewrite Hi. apply write_one_frame, Hne.
Qed.

Lemma C7_no_frame_limit_witness :
  (forall n part,
     (n <= Lpstream.max_length)%N ->
     (N.of_nat (List.length part) < n)%N ->
     react (socket_data (Lpstream.varint_encode n ++ part)) Toy.w0
     = Returned tt
         (with_decoder Toy.w0
            (Lpstream.mkDecoder [] (n - N.of_nat (List.length part)) part))
         []) /\
  (forall frame,
     frame <> [] ->
     (N.of_nat (List.length frame) <= Lpstream.max_length)%N ->
     react (socket_data (Lpstream.encode frame)) Toy.w0 = Emitter.emit_data frame Toy.w0).
Proof.
  apply (@C7_no_frame_limit Toy.externals Toy.w0); reflexivity.
Defined.

(** C7, as the spec has it, fails: no maximum is configured, so that
    whatever one takes for it below 300 bytes, a stream that claims 300 is
    not refused.  Its bytes are kept while they come, nothing is thrown
    and the socket is not destroyed; with the last of them the frame is
    emitted. *)
Lemma C7_counterexample :
  Lpstream.varint_encode 300 = [xac; x02] /\
  run [socket_data (firstn 12 (Lpstream.encode (repeat x41 300)))] Toy.w0
  = Returned tt
      (with_decoder Toy.w0 (Lpstream.mkDecoder [] 290 (repeat x41 10))) [] /\
  run [socket_data (firstn 12 (Lpstream.encode (repeat x41 300)));
       socket_data (skipn 12 (Lpstream.encode (repeat x41 300)))] Toy.w0
  = Returned tt Toy.w0 [NetConn_data (repeat x41 300)] /\
  ~ closes_with "FramingError"
      (run [socket_data (firstn 12 (Lpstream.encode (repeat x41 300)));
            socket_data (skipn 12 (Lpstream.encode (repeat x41 300)))] Toy.w0).
Proof.
  split; [vm_compute; reflexivity|]. split; [vm_compute; reflexivity|].
  split; [vm_compute; reflexivity|].
  intros [[e [H _]] _]. vm_compute in H. discriminate H.
Qed.

(** ** Closing and destroying *)

Lemma emit_disconnected_signals {E : Externals} (w : World) :
  Emitter.emit_disconnected w = Returned tt w (closed_signals w).
Proof.
  unfold Emitter.emit_disconnected, bind, emit, get_netConn, closed_signals.
  assert (H : forall ls,
             for_each Emitter.call_disconnected_listener ls w
             = Returned tt w
                 (map (fun l => match l with
                                | comm_disconnected this => CryptoComm_disconnected this
                                end) ls)).
  { induction ls as [|[this] ls IH].
    - reflexivity.
    - cbn [for_each Emitter.call_disconnected_listener map]. unfold bind, emit.
      rewrite IH. reflexivity. }
  rewrite H. reflexivity.
Qed.

Lemma react_socket_close {E : Externals} (w : World) :
  Socket.closed (_socket (netConn w)) = false ->
  react socket_close w
  = Returned tt (with_socket w (Socket.close (_socket (netConn w)))) (closed_signals w).
Proof.
  intros H. unfold react, bind, get_netConn. rewrite H.
  unfold bind, set_netConn. fold (with_socket w (Socket.close (_socket (netConn w)))).
  rewrite emit_disconnected_signals. reflexivity.
Qed.

(** Once its socket is destroyed, whatever happens to a connection leaves
    the socket destroyed, the listeners in place and the ['close'] flag as
    it is, and emits nothing, but for the socket's ['close']. *)
Lemma react_destroyed {E : Externals} (i : input) (w : World) :
  Socket.destroyed (_socket (netConn w)) = true ->
  i <> socket_close ->
  emitted_of (react i w) = [] /\
  Socket.destroyed (_socket (netConn (world_of (react i w)))) = true /\
  Socket.closed (_socket (netConn (world_of (react i w)))) = Socket.closed (_socket (netConn w)) /\
  on_disconnected (netConn (world_of (react i w))) = on_disconnected (netConn w).
Proof.
  intros Hd Hi. destruct i as [chunk| |e|comm data|comm].
  - unfold react, bind, get_netConn. rewrite Hd. cbn. auto.
  - congruence.
  - cbn. auto.
  - cbn [react]. rewrite send_unfold.
    destruct (nacl_box data _ (_theirPk comm) (_ourSk comm)) as [c|e].
    + cbn [emitted_of world_of netConn _socket on_disconnected].
      unfold Socket.write. rewrite Hd. auto.
    + cbn. auto.
  - cbn. auto.
Qed.

Lemma input_eq_close (i : input) : i = socket_close \/ i <> socket_close.
Proof. destruct i; (left; reflexivity) || (right; discriminate). Qed.

Lemma run_closed_silent {E : Externals} (inputs : list input) :
  forall w,
    Socket.destroyed (_socket (netConn w)) = true ->
    Socket.closed (_socket (netConn w)) = true ->
    emitted_of (run inputs w) = [].
Proof.
  induction inputs as [|i inputs IH]; intros w Hd Hc; [reflexivity|].
  rewrite run_cons. unfold bind.
  destruct (input_eq_close i) as [->|Hi].
  - unfold react, bind, get_netConn. rewrite Hc. unfold ret.
    specialize (IH w Hd Hc). destruct (run inputs w); exact IH.
  - destruct (react_destroyed i w Hd Hi) as (H1 & H2 & H3 & _).
    destruct (react i w) as [[] w1 ev1|e w1 ev1]; cbn [emitted_of world_of] in *.
    + subst ev1. rewrite Hc in H3. specialize (IH w1 H2 H3).
      destruct (run inputs w1); exact IH.
    + exact H1.
Qed.

(** The handlers of a frame do not look at the socket: with another
    socket they end alike. *)
Lemma bind_with_socket {E : Externals} {A B} (s : Socket.t) (m : M A) (k : A -> M B)
    (w : World) :
  m (with_socket w s) = outcome_map (fun w' => with_socket w' s) (m w) ->
  (forall a w', k a (with_socket w' s)
                = outcome_map (fun w'' => with_socket w'' s) (k a w')) ->
  bind m k (with_socket w s) = outcome_map (fun w' => with_socket w' s) (bind m k w).
Proof.
  intros Hm Hk. unfold bind. rewrite Hm.
  destruct (m w) as [a w1 ev1|e w1 ev1]; cbn [outcome_map]; [|reflexivity].
  rewrite Hk. destruct (k a w1); reflexivity.
Qed.

Lemma call_data_listener_with_socket {E : Externals} (l : data_listener) (data : bytes)
    (w : World) (s : Socket.t) :
  Emitter.call_data_listener l data (with_socket w s)
  = outcome_map (fun w' => with_socket w' s) (Emitter.call_data_listener l data w).
Proof.
  destruct l as [keyPair|this].
  - reflexivity.
  - cbn [Emitter.call_data_listener]. rewrite !onData_opened.
    destruct (opened this data) as [[m|]|e]; reflexivity.
Qed.

Lemma call_data_listeners_with_socket {E : Externals} (ls : list (bool * data_listener))
    (data : bytes) (s : Socket.t) :
  forall w,
    Emitter.call_data_listeners ls data (with_socket w s)
    = outcome_map (fun w' => with_socket w' s) (Emitter.call_data_listeners ls data w).
Proof.
  induction ls as [|[once l] ls IH]; intros w; [reflexivity|].
  cbn [Emitter.call_data_listeners]. apply bind_with_socket.
  - destruct once; reflexivity.
  - intros _ w1. apply bind_with_socket.
    + apply call_data_listener_with_socket.
    + intros _ w2. apply IH.
Qed.

Lemma emit_data_with_socket {E : Externals} (data : bytes) (w : World) (s : Socket.t) :
  Emitter.emit_data data (with_socket w s)
  = outcome_map (fun w' => with_socket w' s) (Emitter.emit_data data w).
Proof.
  unfold Emitter.emit_data, bind, emit, get_netConn.
  cbn [with_socket netConn on_data].
  fold (with_socket w s). rewrite call_data_listeners_with_socket.
  destruct (Emitter.call_data_listeners (on_data (netConn w)) data w); reflexivity.
Qed.

(** C8, as the code has it.  [destroy] never throws and emits nothing; it
    destroys the socket and touches nothing else, so that a second
    [destroy] leaves everything as the first did.  It silences nothing: a
    frame that the decoder hands over after it, as it does with the rest of
    a chunk when a listener has called [destroy], is handled as it would
    have been before, with the same events and the same error; and the
    ['close'] of the destroyed socket, when it comes, is passed on as the
    ['disconnected'] of the connection and of its channels. *)
Theorem C8_destroy_twice {E : Externals} (this : CryptoComm) (w : World) (data : bytes) :
  CryptoComm.destroy this w
  = Returned tt (with_socket w (Socket.destroy (_socket (netConn w)))) [] /\
  run [call_destroy this; call_destroy this] w = run [call_destroy this] w /\
  Emitter.emit_data data (world_of (CryptoComm.destroy this w))
  = outcome_map (fun w' => with_socket w' (Socket.destroy (_socket (netConn w))))
      (Emitter.emit_data data w) /\
  (Socket.closed (_socket (netConn w)) = false ->
   react socket_close (world_of (CryptoComm.destroy this w))
   = Returned tt (with_socket w (Socket.close (_socket (netConn w)))) (closed_signals w)).
Proof.
  split; [reflexivity|]. split; [reflexivity|]. split.
  - apply (emit_data_with_socket data w (Socket.destroy (_socket (netConn w)))).
  - intros Hc.
    apply (react_socket_close (world_of (CryptoComm.destroy this w))). exact Hc.
Qed.

Lemma C8_destroy_twice_witness :
  CryptoComm.destroy Toy.b Toy.wB
  = Returned tt (with_socket Toy.wB (Socket.destroy (_socket (netConn Toy.wB)))) [] /\
  run [call_destroy Toy.b; call_destroy Toy.b] Toy.wB = run [call_destroy Toy.b] Toy.wB /\
  Emitter.emit_data Toy.hi (world_of (CryptoComm.destroy Toy.b Toy.wB))
  = outcome_map (fun w' => with_socket w' (Socket.destroy (_socket (netConn Toy.wB))))
      (Emitter.emit_data Toy.hi Toy.wB) /\
  (Socket.closed (_socket (netConn Toy.wB)) = false ->
   react socket_close (world_of (CryptoComm.destroy Toy.b Toy.wB))
   = Returned tt (with_socket Toy.wB (Socket.close (_socket (netConn Toy.wB))))
       (closed_signals Toy.wB)).
Proof.
  exact (@C8_destroy_twice Toy.externals Toy.b Toy.wB Toy.hi).
Defined.

(** C8, as the spec has it, fails twice.  The ['close'] of the destroyed
    socket makes the connection and the channel emit their
    ['disconnected'] after the first [destroy] has returned.  And when a
    listener of ['message'] calls [destroy] on the first of two frames of
    one chunk, the second frame is emitted all the same, with its
    message. *)
Lemma C8_counterexample :
  emitted_of (run [socket_close] (world_of (CryptoComm.destroy Toy.b Toy.wB)))
  = [NetConn_disconnected; CryptoComm_disconnected Toy.b] /\
  existsb is_closed
    (emitted_of (run [socket_close] (world_of (CryptoComm.destroy Toy.b Toy.wB)))) = true /\
  emitted_of
    ((Emitter.emit_data Toy.hi ;; CryptoComm.destroy Toy.b ;; Emitter.emit_data Toy.hi)
       Toy.wB)
  = [NetConn_data Toy.hi; CryptoComm_message Toy.b (Buf [x68; x69]);
     NetConn_data Toy.hi; CryptoComm_message Toy.b (Buf [x68; x69])].
Proof. repeat split; vm_compute; reflexivity. Qed.

(** C9.  When the socket of a connection closes, after an ['error'] or
    without one, the connection emits one ['disconnected'] and, after it,
    every channel that listens emits one: for a connection with its channel
    these are the two events, in this order.  The ['error'] itself makes
    the module emit nothing and throw nothing.  Whatever comes after the
    ['close'] emits nothing: no frame, no message and no second
    ['disconnected']. *)
Theorem C9_one_closed_signal {E : Externals} (this : CryptoComm) (w : World)
    (inputs : list input) (e : js_error) :
  channel_world this w ->
  Socket.closed (_socket (netConn w)) = false ->
  react (socket_error e) w = Returned tt w [] /\
  react socket_close w
  = Returned tt (with_socket w (Socket.close (_socket (netConn w))))
      [NetConn_disconnected; CryptoComm_disconnected this] /\
  emitted_of (run inputs (world_of (react socket_close w))) = [] /\
  emitted_of (run (socket_close :: inputs) w)
  = [NetConn_disconnected; CryptoComm_disconnected this] /\
  emitted_of (run (socket_error e :: socket_close :: inputs) w)
  = [NetConn_disconnected; CryptoComm_disconnected this].
Proof.
  intros [_ Hl] Hc.
  assert (Hs : closed_signals w = [NetConn_disconnected; CryptoComm_disconnected this]).
  { unfold closed_signals. rewrite Hl. reflexivity. }
  rewrite <- Hs. rewrite (react_socket_close w Hc). cbn [world_of].
  pose proof (run_closed_silent inputs
                (with_socket w (Socket.close (_socket (netConn w)))) eq_refl eq_refl) as Hr.
  assert (Hrun : emitted_of (run (socket_close :: inputs) w) = closed_signals w).
  { rewrite run_cons. unfold bind. rewrite (react_socket_close w Hc).
    destruct (run inputs _); cbn [emitted_of] in Hr |- *; subst; apply app_nil_r. }
  split; [reflexivity|]. split; [reflexivity|]. split; [exact Hr|].
  split; [exact Hrun|].
  rewrite run_cons. unfold bind. cbn [react]. unfold ret.
  destruct (run (socket_close :: inputs) w); cbn [emitted_of app] in Hrun |- *; exact Hrun.
Qed.

Lemma C9_one_closed_signal_witness :
  react (socket_error (Error "read ECONNRESET")) Toy.wB = Returned tt Toy.wB [] /\
  react socket_close Toy.wB
  = Returned tt (with_socket Toy.wB (Socket.close (_socket (netConn Toy.wB))))
      [NetConn_disconnected; CryptoComm_disconnected Toy.b] /\
  emitted_of (run [socket_close; socket_data [x01; x41]] (world_of (react socket_close Toy.wB)))
  = [] /\
  emitted_of (run (socket_close :: [socket_close; socket_data [x01; x41]]) Toy.wB)
  = [NetConn_disconnected; CryptoComm_disconnected Toy.b] /\
  emitted_of
    (run (socket_error (Error "read ECONNRESET")
            :: socket_close :: [socket_close; socket_data [x01; x41]]) Toy.wB)
  = [NetConn_disconnected; CryptoComm_disconnected Toy.b].
Proof.
  apply (@C9_one_closed_signal Toy.externals Toy.b Toy.wB
           [socket_close; socket_data [x01; x41]] (Error "read ECONNRESET")).
  - split; reflexivity.
  - reflexivity.
Defined.

(* ================================================================== *)
(** * Further properties of the module *)

(** ** Frames and chunks *)

Lemma write_framed (frames : list bytes) :
  Forall (fun f => f <> []) frames ->
  Lpstream.write Lpstream.decode (framed frames) = (Lpstream.decode, frames).
Proof.
  unfold framed. induction 1 as [|f fs Hf _ IH]; [reflexivity|].
  cbn [map List.concat]. rewrite write_encode, IH.
  destruct f; [congruence|reflexivity].
Qed.

(** What the listeners of a connection do depends on the listeners alone,
    and changes nothing else. *)
Lemma call_data_listeners_shape {E : Externals} (data : bytes)
    (ls0 : list (bool * data_listener)) :
  forall ls ds, exists r ls' ds' ev,
    forall w, on_data (netConn w) = ls -> on_disconnected (netConn w) = ds ->
      Emitter.call_data_listeners ls0 data w = ended r (with_listeners w ls' ds') ev.
Proof.
  induction ls0 as [|[once l] ls0 IH]; intros ls ds.
  - exists None, ls, ds, []. intros w <- <-. cbn. unfold ret, with_listeners.
    rewrite world_eta. reflexivity.
  - set (ls1 := if once then Emitter.remove_once l ls else ls).
    assert (H1 : forall w, on_data (netConn w) = ls -> on_disconnected (netConn w) = ds ->
               (if once then Emitter.removeListener l else ret tt) w
               = Returned tt (with_listeners w ls1 ds) []).
    { intros w <- <-. unfold ls1. destruct once.
      - reflexivity.
      - unfold ret, with_listeners. rewrite world_eta. reflexivity. }
    destruct l as [keyPair|this].
    + set (comm := mkCryptoComm data data (KeyPair.sk keyPair)).
      destruct (IH (ls1 ++ [(false, comm_data comm)]) (ds ++ [comm_disconnected comm]))
        as (r & ls' & ds' & ev & H).
      exists r, ls', ds', (TrannyServer_client comm :: ev).
      intros w Hl Hd. cbn [Emitter.call_data_listeners]. unfold bind at 1.
      rewrite (H1 w Hl Hd). unfold bind at 1.
      cbn [Emitter.call_data_listener]. unfold bind at 1, CryptoComm.constructor.
      unfold bind, get_netConn, set_netConn, ret, emit.
      cbn [netConn with_listeners on_data on_disconnected _socket _socketDecoder random].
      fold comm.
      match goal with |- context [Emitter.call_data_listeners ls0 data ?w1] =>
        rewrite (H w1 eq_refl eq_refl)
      end.
      destruct r; reflexivity.
    + destruct (IH ls1 ds) as (r & ls' & ds' & ev & H).
      destruct (opened this data) as [[m|]|e] eqn:Ho.
      * exists r, ls', ds', (CryptoComm_message this (Buf m) :: ev).
        intros w Hl Hd. cbn [Emitter.call_data_listeners]. unfold bind at 1.
        rewrite (H1 w Hl Hd). unfold bind at 1.
        cbn [Emitter.call_data_listener]. rewrite onData_opened, Ho.
        unfold bind.
        match goal with |- context [Emitter.call_data_listeners ls0 data ?w1] =>
          rewrite (H w1 eq_refl eq_refl)
        end.
        destruct r; reflexivity.
      * exists r, ls', ds', ev.
        intros w Hl Hd. cbn [Emitter.call_data_listeners]. unfold bind at 1.
        rewrite (H1 w Hl Hd). unfold bind at 1.
        cbn [Emitter.call_data_listener]. rewrite onData_opened, Ho.
        unfold bind.
        match goal with |- context [Emitter.call_data_listeners ls0 data ?w1] =>
          rewrite (H w1 eq_refl eq_refl)
        end.
        destruct r; reflexivity.
      * exists (Some e), ls1, ds, [].
        intros w Hl Hd. cbn [Emitter.call_data_listeners]. unfold bind at 1.
        rewrite (H1 w Hl Hd). unfold bind at 1.
        cbn [Emitter.call_data_listener]. rewrite onData_opened, Ho.
        reflexivity.
Qed.

Lemma emit_data_shape {E : Externals} (data : bytes) :
  forall ls ds, exists r ls' ds' ev,
    forall w, on_data (netConn w) = ls -> on_disconnected (netConn w) = ds ->
      Emitter.emit_data data w = ended r (with_listeners w ls' ds') ev.
Proof.
  intros ls ds.
  destruct (call_data_listeners_shape data ls ls ds) as (r & ls' & ds' & ev & H).
  exists r, ls', ds', (NetConn_data data :: ev).
  intros w Hl Hd. unfold Emitter.emit_data, bind, emit, get_netConn.
  rewrite Hl, (H w Hl Hd). destruct r; reflexivity.
Qed.

Lemma for_each_emit_data_shape {E : Externals} (frames : list bytes) :
  forall ls ds, exists r ls' ds' ev,
    forall w, on_data (netConn w) = ls -> on_disconnected (netConn w) = ds ->
      for_each Emitter.emit_data frames w = ended r (with_listeners w ls' ds') ev.
Proof.
  induction frames as [|f fs IH]; intros ls ds.
  - exists None, ls, ds, []. intros w <- <-. cbn. unfold ret, with_listeners.
    rewrite world_eta. reflexivity.
  - destruct (emit_data_shape f ls ds) as (r1 & ls1 & ds1 & ev1 & H1).
    destruct r1 as [e|].
    + exists (Some e), ls1, ds1, ev1. intros w Hl Hd.
      cbn [for_each]. unfold bind. rewrite (H1 w Hl Hd). reflexivity.
    + destruct (IH ls1 ds1) as (r & ls' & ds' & ev & H).
      exists r, ls', ds', (ev1 ++ ev). intros w Hl Hd.
      cbn [for_each]. unfold bind. rewrite (H1 w Hl Hd). cbn [ended].
      rewrite (H (with_listeners w ls1 ds1) eq_refl eq_refl). destruct r; reflexivity.
Qed.

Lemma for_each_emit_data_with_decoder {E : Externals} (frames : list bytes)
    (w : World) (d : Lpstream.Decoder) :
  for_each Emitter.emit_data frames (with_decoder w d)
  = outcome_map (fun w' => with_decoder w' d) (for_each Emitter.emit_data frames w).
Proof.
  destruct (for_each_emit_data_shape frames (on_data (netConn w)) (on_disconnected (netConn w)))
    as (r & ls' & ds' & ev & H).
  rewrite (H w eq_refl eq_refl), (H (with_decoder w d) eq_refl eq_refl).
  destruct r; reflexivity.
Qed.

Lemma for_each_emit_data_keeps {E : Externals} (frames : list bytes) (w : World) :
  _socket (netConn (world_of (for_each Emitter.emit_data frames w))) = _socket (netConn w) /\
  _socketDecoder (netConn (world_of (for_each Emitter.emit_data frames w)))
  = _socketDecoder (netConn w) /\
  random (world_of (for_each Emitter.emit_data frames w)) = random w.
Proof.
  destruct (for_each_emit_data_shape frames (on_data (netConn w)) (on_disconnected (netConn w)))
    as (r & ls' & ds' & ev & H).
  rewrite (H w eq_refl eq_refl). destruct r; repeat split.
Qed.

Lemma for_each_app {E : Externals} {A} (f : A -> M unit) (xs ys : list A) (w : World) :
  for_each f (xs ++ ys) w = bind (for_each f xs) (fun _ => for_each f ys) w.
Proof.
  revert w. induction xs as [|x xs IH]; intros w.
  - cbn [app for_each]. unfold bind, ret.
    destruct (for_each f ys w); reflexivity.
  - cbn [app for_each]. unfold bind.
    destruct (f x w) as [[] w1 ev1|e w1 ev1]; [|reflexivity].
    specialize (IH w1). unfold bind in IH. rewrite IH.
    destruct (for_each f xs w1) as [[] w2 ev2|e w2 ev2]; [|reflexivity].
    destruct (for_each f ys w2) as [[] w3 ev3|e w3 ev3];
      rewrite ?app_assoc; reflexivity.
Qed.

(** However the bytes of a stream are cut into chunks, the connection emits
    what it would emit for the frames of the stream one after the other. *)
Lemma run_chunks_deliver {E : Externals} (chunks : list bytes) :
  forall (w : World) (d : Lpstream.Decoder) (frames : list bytes),
    live w ->
    Lpstream.write (_socketDecoder (netConn w)) (List.concat chunks) = (d, frames) ->
    emitted_of (run (map socket_data chunks) w)
    = emitted_of (for_each Emitter.emit_data frames w) /\
    thrown_of (run (map socket_data chunks) w)
    = thrown_of (for_each Emitter.emit_data frames w) /\
    (thrown_of (run (map socket_data chunks) w) = None ->
     world_of (run (map socket_data chunks) w)
     = with_decoder (world_of (for_each Emitter.emit_data frames w)) d).
Proof.
  induction chunks as [|c cs IH]; intros w d frames Hl Hd.
  - cbn in Hd. injection Hd as <- <-. cbn. rewrite with_decoder_same. auto.
  - cbn [List.concat] in Hd. rewrite write_app in Hd.
    destruct (Lpstream.write (_socketDecoder (netConn w)) c) as [d1 fs1] eqn:E1.
    destruct (Lpstream.write d1 (List.concat cs)) as [d2 fs2] eqn:E2.
    injection Hd as <- <-.
    cbn [map]. rewrite run_cons. unfold bind.
    rewrite (react_socket_data c w d1 fs1 Hl E1).
    rewrite for_each_emit_data_with_decoder, for_each_app. unfold bind.
    destruct (for_each_emit_data_keeps fs1 w) as (Hs & Hdec & _).
    destruct (for_each Emitter.emit_data fs1 w) as [[] w1 ev1|e w1 ev1];
      cbn [world_of outcome_map] in *.
    + destruct (IH (with_decoder w1 d1) d2 fs2) as (He & Ht & Hw).
      { unfold live in *. cbn. rewrite Hs. exact Hl. }
      { exact E2. }
      rewrite for_each_emit_data_with_decoder in He, Ht, Hw.
      destruct (run (map socket_data cs) (with_decoder w1 d1)) as [[] w2 ev2|e w2 ev2];
        destruct (for_each Emitter.emit_data fs2 w1) as [[] w3 ev3|e3 w3 ev3];
        cbn [emitted_of thrown_of world_of outcome_map] in *;
        try discriminate; subst; repeat split; try congruence.
      intros _. rewrite Hw by reflexivity. reflexivity.
    + repeat split. discriminate.
Qed.

Lemma outcome_unit_eq {E : Externals} (o : outcome unit) (w : World) (ev : list event) :
  thrown_of o = None -> world_of o = w -> emitted_of o = ev -> o = Returned tt w ev.
Proof. destruct o as [[] w1 ev1|e w1 ev1]; cbn; intros; [subst; reflexivity|discriminate]. Qed.

Lemma for_each_send {E : Externals} (frames : list bytes) :
  forall w, live w ->
    for_each NetConn.send frames w
    = Returned tt
        (with_socket w
           (Socket.mk false (Socket.closed (_socket (netConn w)))
              (Socket.written (_socket (netConn w)) ++ framed frames)))
        [].
Proof.
  induction frames as [|f fs IH]; intros w Hl.
  - cbn. unfold ret, framed, with_socket. cbn [map List.concat]. rewrite app_nil_r.
    unfold live in Hl. rewrite <- Hl.
    destruct w as [[[ds cl wr] d l1 l2] g]. reflexivity.
  - cbn [for_each]. unfold bind.
    unfold NetConn.send at 1. unfold bind, get_netConn, set_netConn.
    unfold Socket.write. unfold live in Hl. rewrite Hl.
    rewrite IH by reflexivity.
    unfold with_socket, framed.
    cbn [netConn _socket _socketDecoder on_data on_disconnected random
         Socket.closed Socket.written map List.concat app].
    rewrite <- app_assoc. reflexivity.
Qed.

Lemma for_each_emit_data_bare {E : Externals} (frames : list bytes) (w : World) :
  on_data (netConn w) = [] ->
  for_each Emitter.emit_data frames w = Returned tt w (map NetConn_data frames).
Proof.
  intros H. induction frames as [|f fs IH]; [reflexivity|].
  cbn [for_each map]. unfold bind.
  unfold Emitter.emit_data at 1. unfold bind, emit, get_netConn. rewrite H.
  cbn [Emitter.call_data_listeners]. unfold ret. rewrite IH. reflexivity.
Qed.

(** X1.  Frames written with [NetConn.send] go out one after the other,
    each behind its length, and a connection that receives those bytes, cut
    into chunks in any way, emits the same frames in the same order, byte
    for byte. *)
Theorem X1_frames_kept_in_order {E : Externals}
    (frames : list bytes) (wS wR : World) (chunks : list bytes) :
  Forall (fun f => f <> []) frames ->
  live wS -> live wR -> idle wR ->
  on_data (netConn wR) = [] ->
  List.concat chunks = framed frames ->
  for_each NetConn.send frames wS
  = Returned tt
      (with_socket wS
         (Socket.mk false (Socket.closed (_socket (netConn wS)))
            (Socket.written (_socket (netConn wS)) ++ framed frames)))
      [] /\
  run (map socket_data chunks) wR = Returned tt wR (map NetConn_data frames).
Proof.
  intros Hne HlS HlR Hi Hbare Hch. split; [apply for_each_send, HlS|].
  destruct (run_chunks_deliver chunks wR Lpstream.decode frames HlR) as (He & Ht & Hw).
  { rewrite Hch. unfold idle in Hi. rewrite Hi. apply write_framed, Hne. }
  rewrite (for_each_emit_data_bare frames wR Hbare) in He, Ht, Hw.
  cbn [emitted_of thrown_of world_of] in He, Ht, Hw.
  apply outcome_unit_eq; [exact Ht| |exact He].
  rewrite (Hw Ht). unfold idle in Hi. rewrite <- Hi. apply with_decoder_same.
Qed.

Lemma X1_frames_kept_in_order_witness :
  for_each NetConn.send [[x61; x62]; [x63]] Toy.w0
  = Returned tt
      (with_socket Toy.w0
         (Socket.mk false (Socket.closed (_socket (netConn Toy.w0)))
            (Socket.written (_socket (netConn Toy.w0)) ++ framed [[x61; x62]; [x63]])))
      [] /\
  run (map socket_data [[x02; x61]; []; [x62; x01]; [x63]]) Toy.w0
  = Returned tt Toy.w0 (map NetConn_data [[x61; x62]; [x63]]).
Proof.
  apply (@X1_frames_kept_in_order Toy.externals [[x61; x62]; [x63]] Toy.w0 Toy.w0
           [[x02; x61]; []; [x62; x01]; [x63]]).
  - repeat constructor; discriminate.
  - reflexivity.
  - reflexivity.
  - reflexivity.
  - reflexivity.
  - reflexivity.
Defined.

(** ** Sequences of messages *)

Lemma run_sends {E : Externals} {HE : ExternalsOk E} (A B : KeyPair.t) (a : CryptoComm)
    (msgs : list bytes) :
  valid_keyPair A -> valid_keyPair B ->
  _theirPk a = KeyPair.pk B -> _ourSk a = KeyPair.sk A ->
  forall w, live w ->
    run (map (call_send a) msgs) w
    = Returned tt
        (mkWorld
           (mkNetConn
              (Socket.mk false (Socket.closed (_socket (netConn w)))
                 (Socket.written (_socket (netConn w))
                  ++ framed (sent_frames a msgs (random w))))
              (_socketDecoder (netConn w)) (on_data (netConn w))
              (on_disconnected (netConn w)))
           (random_after (List.length msgs) (random w)))
        [] /\
    List.length (sent_frames a msgs (random w)) = List.length msgs.
Proof.
  intros HA HB Ha1 Ha2. induction msgs as [|m msgs IH]; intros w Hl.
  - split; [|reflexivity]. cbn. unfold ret, framed. cbn [map List.concat].
    rewrite app_nil_r. unfold live in Hl. rewrite <- Hl.
    destruct w as [[[ds cl wr] d l1 l2] g]. reflexivity.
  - cbn [map]. rewrite run_cons. unfold bind. cbn [react].
    rewrite send_unfold. cbn [sent_frames random_after List.length].
    destruct (nacl_randomBytes (random w) nacl_box_nonceLength) as [nonce g] eqn:Er.
    cbn [fst snd].
    destruct (box_open_box m nonce A B HA HB) as (c & Hc & _).
    { pose proof (randomBytes_length (random w) nacl_box_nonceLength) as H.
      rewrite Er in H. exact H. }
    rewrite Ha1, Ha2, Hc.
    match goal with |- context [run (map (call_send a) msgs) ?w1] =>
      destruct (IH w1) as [IH1 IH2]
    end.
    { unfold live, Socket.write. unfold live in Hl. cbn. rewrite Hl. reflexivity. }
    rewrite IH1. cbn [netConn random _socket _socketDecoder on_data on_disconnected] in *.
    unfold Socket.write. unfold live in Hl. rewrite Hl.
    cbn [Socket.closed Socket.written]. split.
    + unfold framed. cbn [map List.concat]. rewrite <- app_assoc. reflexivity.
    + cbn [List.length]. f_equal. exact IH2.
Qed.

Lemma sent_frames_open {E : Externals} {HE : ExternalsOk E} (A B : KeyPair.t)
    (a b : CryptoComm) (msgs : list bytes) :
  valid_keyPair A -> valid_keyPair B ->
  _theirPk a = KeyPair.pk B -> _ourSk a = KeyPair.sk A ->
  _theirPk b = KeyPair.pk A -> _ourSk b = KeyPair.sk B ->
  forall g,
    Forall2 (fun f m => f <> [] /\ opened b f = Ok (Some m)) (sent_frames a msgs g) msgs.
Proof.
  intros HA HB Ha1 Ha2 Hb1 Hb2. induction msgs as [|m msgs IH]; intros g.
  - constructor.
  - cbn [sent_frames].
    destruct (nacl_randomBytes g nacl_box_nonceLength) as [nonce g1] eqn:Er.
    destruct (box_open_box m nonce A B HA HB) as (c & Hc & Ho).
    { pose proof (randomBytes_length g nacl_box_nonceLength) as H.
      rewrite Er in H. exact H. }
    rewrite Ha1, Ha2, Hc. constructor; [|apply IH].
    split; [apply envelope_frame_nonempty|].
    rewrite opened_envelope, Hb1, Hb2. exact Ho.
Qed.

Lemma for_each_delivered {E : Externals} (this : CryptoComm) (frames msgs : list bytes)
    (w : World) :
  on_data (netConn w) = [(false, comm_data this)] ->
  Forall2 (fun f m => f <> [] /\ opened this f = Ok (Some m)) frames msgs ->
  for_each Emitter.emit_data frames w = Returned tt w (delivered this frames msgs).
Proof.
  intros Hw H. induction H as [|f m fs ms [_ Hf] _ IH]; [reflexivity|].
  cbn [for_each]. unfold bind. rewrite (emit_data_channel this) by assumption.
  rewrite Hf, IH. reflexivity.
Qed.

Lemma Forall2_nonempty {A} (P : bytes -> A -> Prop) (frames : list bytes) (xs : list A) :
  Forall2 (fun f x => f <> [] /\ P f x) frames xs -> Forall (fun f => f <> []) frames.
Proof. induction 1 as [|f x fs xs [H _] _ IH]; constructor; assumption. Qed.

Lemma messages_of_delivered (this : CryptoComm) (frames msgs : list bytes) :
  List.length frames = List.length msgs ->
  filter is_message (delivered this frames msgs)
  = map (fun m => CryptoComm_message this (Buf m)) msgs.
Proof.
  revert msgs. induction frames as [|f fs IH]; intros [|m ms] H; try discriminate H.
  - reflexivity.
  - unfold delivered in *. cbn [combine flat_map app filter is_message fst snd map].
    rewrite IH by (injection H; auto). reflexivity.
Qed.

(** A channel that receives, in chunks cut in any way, frames that open to
    messages, emits them all, in order *)
Lemma run_chunks_delivered {E : Externals} (this : CryptoComm) (frames msgs : list bytes)
    (chunks : list bytes) (w : World) :
  on_data (netConn w) = [(false, comm_data this)] ->
  live w -> idle w ->
  Forall2 (fun f m => f <> [] /\ opened this f = Ok (Some m)) frames msgs ->
  List.concat chunks = framed frames ->
  run (map socket_data chunks) w = Returned tt w (delivered this frames msgs).
Proof.
  intros Hw Hl Hi HF Hch.
  destruct (run_chunks_deliver chunks w Lpstream.decode frames Hl) as (He & Ht & Hwo).
  { rewrite Hch. unfold idle in Hi. rewrite Hi.
    apply write_framed. exact (Forall2_nonempty _ _ _ HF). }
  rewrite (for_each_delivered this frames msgs w Hw HF) in He, Ht, Hwo.
  cbn [emitted_of thrown_of world_of] in He, Ht, Hwo.
  apply outcome_unit_eq; [exact Ht| |exact He].
  rewrite (Hwo Ht). unfold idle in Hi. rewrite <- Hi. apply with_decoder_same.
Qed.

(** X2.  Messages sent one after the other on a channel bound to
    (B.pk, A.sk) are each boxed under a nonce of their own, drawn in turn
    from the random source, and written as one frame each, in order; the
    channel bound to (A.pk, B.sk) that receives the bytes, cut into chunks
    in any way, emits exactly these messages, in the order sent, none lost
    and none twice. *)
Theorem X2_messages_delivered_in_order {E : Externals} {HE : ExternalsOk E}
    (A B : KeyPair.t) (a b : CryptoComm) (msgs : list bytes) (wA wB : World)
    (chunks : list bytes) :
  valid_keyPair A -> valid_keyPair B ->
  _theirPk a = KeyPair.pk B -> _ourSk a = KeyPair.sk A ->
  _theirPk b = KeyPair.pk A -> _ourSk b = KeyPair.sk B ->
  live wA -> channel_world b wB -> live wB -> idle wB ->
  List.concat chunks = framed (sent_frames a msgs (random wA)) ->
  thrown_of (run (map (call_send a) msgs) wA) = None /\
  Socket.written (_socket (netConn (world_of (run (map (call_send a) msgs) wA))))
  = Socket.written (_socket (netConn wA)) ++ framed (sent_frames a msgs (random wA)) /\
  random (world_of (run (map (call_send a) msgs) wA))
  = random_after (List.length msgs) (random wA) /\
  List.length (sent_frames a msgs (random wA)) = List.length msgs /\
  run (map socket_data chunks) wB
  = Returned tt wB (delivered b (sent_frames a msgs (random wA)) msgs) /\
  filter is_message (emitted_of (run (map socket_data chunks) wB))
  = map (fun m => CryptoComm_message b (Buf m)) msgs.
Proof.
  intros HA HB Ha1 Ha2 Hb1 Hb2 HlA [Hd _] HlB Hi Hch.
  destruct (run_sends A B a msgs HA HB Ha1 Ha2 wA HlA) as [Hs Hlen].
  rewrite Hs. cbn [thrown_of world_of netConn _socket random Socket.written].
  split; [reflexivity|]. split; [reflexivity|]. split; [reflexivity|].
  split; [exact Hlen|].
  assert (Hr : run (map socket_data chunks) wB
               = Returned tt wB (delivered b (sent_frames a msgs (random wA)) msgs)).
  { apply run_chunks_delivered; try assumption.
    apply (sent_frames_open A B a b msgs); assumption. }
  split; [exact Hr|]. rewrite Hr. cbn [emitted_of].
  apply messages_of_delivered, Hlen.
Qed.

Lemma X2_messages_delivered_in_order_witness :
  let msgs := [[x68; x69]; [x21]] in
  let wire := framed (sent_frames Toy.a msgs (random Toy.wA)) in
  let chunks := [firstn 100 wire; skipn 100 wire] in
  thrown_of (run (map (call_send Toy.a) msgs) Toy.wA) = None /\
  Socket.written (_socket (netConn (world_of (run (map (call_send Toy.a) msgs) Toy.wA))))
  = Socket.written (_socket (netConn Toy.wA)) ++ framed (sent_frames Toy.a msgs (random Toy.wA)) /\
  random (world_of (run (map (call_send Toy.a) msgs) Toy.wA))
  = random_after (List.length msgs) (random Toy.wA) /\
  List.length (sent_frames Toy.a msgs (random Toy.wA)) = List.length msgs /\
  run (map socket_data chunks) Toy.wB
  = Returned tt Toy.wB (delivered Toy.b (sent_frames Toy.a msgs (random Toy.wA)) msgs) /\
  filter is_message (emitted_of (run (map socket_data chunks) Toy.wB))
  = map (fun m => CryptoComm_message Toy.b (Buf m)) msgs.
Proof.
  intros msgs wire chunks.
  apply (@X2_messages_delivered_in_order Toy.externals toy_ok Toy.A Toy.B Toy.a Toy.b
           msgs Toy.wA Toy.wB chunks).
  - split; reflexivity.
  - split; reflexivity.
  - reflexivity.
  - reflexivity.
  - reflexivity.
  - reflexivity.
  - reflexivity.
  - split; reflexivity.
  - reflexivity.
  - reflexivity.
  - vm_compute. reflexivity.
Defined.

(** ** A frame that makes the handler throw *)

Lemma frame_returns_nonempty {E : Externals} (this : CryptoComm) (f : bytes) :
  frame_returns this f -> f <> [].
Proof.
  intros [r H] ->. unfold opened in H. cbn in H. discriminate H.
Qed.

Lemma for_each_throwing_frame {E : Externals} (this : CryptoComm)
    (before : list bytes) (bad : bytes) (after : list bytes) (e : js_error) (w : World) :
  on_data (netConn w) = [(false, comm_data this)] ->
  Forall (frame_returns this) before ->
  opened this bad = Throw e ->
  for_each Emitter.emit_data (before ++ bad :: after) w
  = Thrown e w (flat_map (frame_events this) before ++ [NetConn_data bad]).
Proof.
  intros Hw Hb He. rewrite for_each_app. unfold bind.
  rewrite (for_each_frames this before w Hw Hb).
  cbn [for_each]. unfold bind. rewrite (emit_data_channel this) by assumption.
  rewrite He. reflexivity.
Qed.

(** C2.  What becomes of a well-formed envelope is decided by what
    [nacl.box.open] does with it.  Where it returns [null] the guard of the
    handler drops the frame: no ['message'], no error, the world as it
    was.  Where it throws, as it does on a nonce that is not 24 bytes
    long, the guard is not reached: the error leaves the handler and the
    [emit] of the connection, caught by no one, after the ['data'] of the
    frame and without a ['message'].  Where it opens the box the plaintext
    is emitted. *)
Theorem C2_open_failure {E : Externals}
    (this : CryptoComm) (data c nonce : bytes) (w : World) (chunks : list bytes) :
  well_formed_envelope data c nonce ->
  channel_world this w -> live w -> idle w ->
  List.concat chunks = Lpstream.encode data ->
  match nacl_box_open c nonce (_theirPk this) (_ourSk this) with
  | Ok None =>
      CryptoComm._onData this data w = Returned tt w [] /\
      run (map socket_data chunks) w = Returned tt w [NetConn_data data]
  | Throw e =>
      CryptoComm._onData this data w = Thrown e w [] /\
      thrown_of (run (map socket_data chunks) w) = Some e /\
      emitted_of (run (map socket_data chunks) w) = [NetConn_data data]
  | Ok (Some m) =>
      CryptoComm._onData this data w
      = Returned tt w [CryptoComm_message this (Buf m)] /\
      run (map socket_data chunks) w
      = Returned tt w [NetConn_data data; CryptoComm_message this (Buf m)]
  end.
Proof.
  intros Hwf Hw Hl Hi Hch.
  pose proof (opened_well_formed this data c nonce Hwf) as Ho.
  assert (Hne : data <> []).
  { destruct Hwf as (v & _ & _ & Hp & _). exact (parsed_nonempty data v Hp). }
  assert (Hfr : List.concat chunks = framed [data]).
  { rewrite Hch. unfold framed. cbn [map List.concat]. symmetry. apply app_nil_r. }
  destruct (nacl_box_open c nonce (_theirPk this) (_ourSk this)) as [[m|]|e] eqn:Hopen.
  - split; [rewrite onData_opened, Ho; reflexivity|].
    destruct Hw as [Hw _].
    apply (run_chunks_delivered this [data] [m] chunks w Hw Hl Hi); [|exact Hfr].
    constructor; [split; assumption|constructor].
  - destruct (failed_open_is_dropped this data c nonce w chunks [] Hwf Hopen Hw Hl Hi Hch)
      as (H1 & H2 & _).
    split; assumption.
  - split; [rewrite onData_opened, Ho; reflexivity|].
    destruct Hw as [Hw _].
    destruct (run_chunks_deliver chunks w Lpstream.decode [data] Hl) as (H1 & H2 & _).
    { rewrite Hch. unfold idle in Hi. rewrite Hi. apply write_one_frame, Hne. }
    pose proof (for_each_throwing_frame this [] data [] e w Hw (Forall_nil _) Ho) as Ht.
    cbn [app flat_map] in Ht. rewrite Ht in H1, H2.
    split; assumption.
Qed.

(** The frame [{ data: 'AA==', nonce: 'AA==' }] on the responder's channel:
    [nacl.box.open] throws on the nonce of one byte, and so does the
    handler. *)
Lemma C2_open_failure_witness :
  CryptoComm._onData Toy.b Toy.short_nonce Toy.wB
  = Thrown (Error "bad nonce size") Toy.wB [] /\
  thrown_of (run (map socket_data [Lpstream.encode Toy.short_nonce]) Toy.wB)
  = Some (Error "bad nonce size") /\
  emitted_of (run (map socket_data [Lpstream.encode Toy.short_nonce]) Toy.wB)
  = [NetConn_data Toy.short_nonce].
Proof.
  assert (Hwf : well_formed_envelope Toy.short_nonce [x00] [x00]).
  { exists (CryptoComm.envelope [x00] [x00]).
    exists (Base64.encode [x00]), (Base64.encode [x00]).
    repeat split; vm_compute; reflexivity. }
  pose proof (@C2_open_failure Toy.externals Toy.b Toy.short_nonce [x00] [x00] Toy.wB
                [Lpstream.encode Toy.short_nonce] Hwf
                (conj eq_refl eq_refl) eq_refl eq_refl (app_nil_r _)) as H.
  exact H.
Defined.

(** X6.  A frame that makes the handler throw ends the delivery of the
    bytes received: the error leaves the module uncaught, the frames before
    it have been handled, the ['data'] of the frame is the last event, and
    the frames that follow it in these bytes are not emitted. *)
Theorem X6_throwing_frame_ends_delivery {E : Externals} (this : CryptoComm)
    (before : list bytes) (bad : bytes) (after : list bytes) (e : js_error)
    (w : World) (chunks : list bytes) :
  channel_world this w -> live w -> idle w ->
  Forall (frame_returns this) before ->
  bad <> [] -> opened this bad = Throw e ->
  Forall (fun f => f <> []) after ->
  List.concat chunks = framed (before ++ bad :: after) ->
  thrown_of (run (map socket_data chunks) w) = Some e /\
  emitted_of (run (map socket_data chunks) w)
  = flat_map (frame_events this) before ++ [NetConn_data bad].
Proof.
  intros [Hw _] Hl Hi Hb Hne He Ha Hch.
  destruct (run_chunks_deliver chunks w Lpstream.decode (before ++ bad :: after) Hl)
    as (H1 & H2 & _).
  { rewrite Hch. unfold idle in Hi. rewrite Hi. apply write_framed.
    apply Forall_app. split.
    - eapply Forall_impl; [|exact Hb]. intros f. apply frame_returns_nonempty.
    - constructor; assumption. }
  rewrite (for_each_throwing_frame this before bad after e w Hw Hb He) in H1, H2.
  split; assumption.
Qed.

Lemma X6_throwing_frame_ends_delivery_witness :
  let good := Toy.forged in
  let bad := [x7b; x7d] in
  let wire := framed ([good] ++ bad :: [good]) in
  let chunks := [firstn 50 wire; skipn 50 wire] in
  thrown_of (run (map socket_data chunks) Toy.wB)
  = Some (TypeError "The first argument must be of type string or an instance of Buffer, ArrayBuffer, or Array or an Array-like Object") /\
  emitted_of (run (map socket_data chunks) Toy.wB)
  = flat_map (@frame_events Toy.externals Toy.b) [good] ++ [NetConn_data bad].
Proof.
  intros good bad wire chunks.
  apply (@X6_throwing_frame_ends_delivery Toy.externals Toy.b [good] bad [good]
           _ Toy.wB chunks).
  - split; reflexivity.
  - reflexivity.
  - reflexivity.
  - constructor; [|constructor]. exists None. vm_compute. reflexivity.
  - discriminate.
  - vm_compute. reflexivity.
  - constructor; [discriminate|constructor].
  - vm_compute. reflexivity.
Defined.

(** ** A whole session *)

Lemma client_constructed {E : Externals} (keyPair : KeyPair.t) (theirPk : bytes) (g : Rng) :
  TrannyClient.constructor keyPair theirPk g
  = Returned (mkCryptoComm theirPk theirPk (KeyPair.sk keyPair))
      (mkWorld
         (mkNetConn (Socket.mk false false (Lpstream.encode (KeyPair.pk keyPair)))
            Lpstream.decode
            [(false, comm_data (mkCryptoComm theirPk theirPk (KeyPair.sk keyPair)))]
            [comm_disconnected (mkCryptoComm theirPk theirPk (KeyPair.sk keyPair))])
         g)
      [].
Proof. reflexivity. Qed.

Lemma for_each_handshake_delivered {E : Externals} (keyPair : KeyPair.t) (data : bytes)
    (frames msgs : list bytes) (w : World) :
  accepted_world keyPair w ->
  Forall2 (fun f m => f <> [] /\
                      opened (mkCryptoComm data data (KeyPair.sk keyPair)) f = Ok (Some m))
    frames msgs ->
  for_each Emitter.emit_data (data :: frames) w
  = Returned tt
      (with_listeners w
         [(false, comm_data (mkCryptoComm data data (KeyPair.sk keyPair)))]
         [comm_disconnected (mkCryptoComm data data (KeyPair.sk keyPair))])
      (NetConn_data data
         :: TrannyServer_client (mkCryptoComm data data (KeyPair.sk keyPair))
         :: delivered (mkCryptoComm data data (KeyPair.sk keyPair)) frames msgs).
Proof.
  intros Ha HF. cbn [for_each]. unfold bind.
  rewrite (emit_data_accepted keyPair data w Ha).
  rewrite (for_each_delivered (mkCryptoComm data data (KeyPair.sk keyPair)) frames msgs)
    by (reflexivity || assumption).
  reflexivity.
Qed.

(** X3.  A whole session between two parties whose key pairs [genKeyPair]
    has made.  The initiator's constructor and its sends write its public
    key and then one frame a message; the responder that receives these
    bytes, cut into chunks in any way, emits one channel bound to the
    initiator's public key and then the messages, in order.  The channel
    the responder has emitted writes, for a reply, the frame of the reply
    and nothing before it, and the initiator's channel emits the reply. *)
Theorem X3_session {E : Externals} {HE : ExternalsOk E}
    (g1 g2 gA gB : Rng) (msgs : list bytes) (reply : bytes)
    (chunks back : list bytes) :
  let A := fst (genKeyPair g1) in
  let B := fst (genKeyPair g2) in
  let a := mkCryptoComm (KeyPair.pk B) (KeyPair.pk B) (KeyPair.sk A) in
  let b := mkCryptoComm (KeyPair.pk A) (KeyPair.pk A) (KeyPair.sk B) in
  let wC := world_of (run (map (call_send a) msgs)
                        (world_of (TrannyClient.constructor A (KeyPair.pk B) gA))) in
  let wS := world_of (run (map socket_data chunks)
                        (TrannyServer.connection B Socket.fresh gB)) in
  let wS' := world_of (run [call_send b reply] wS) in
  KeyPair.pk A <> [] ->
  List.concat chunks = Socket.written (_socket (netConn wC)) ->
  List.concat back = Socket.written (_socket (netConn wS')) ->
  Socket.written (_socket (netConn wC))
  = Lpstream.encode (KeyPair.pk A) ++ framed (sent_frames a msgs gA) /\
  run (map socket_data chunks) (TrannyServer.connection B Socket.fresh gB)
  = Returned tt wS
      (NetConn_data (KeyPair.pk A) :: TrannyServer_client b
         :: delivered b (sent_frames a msgs gA) msgs) /\
  channel_world b wS /\
  Socket.written (_socket (netConn wS')) = framed (sent_frames b [reply] gB) /\
  run (map socket_data back) wC
  = Returned tt wC (delivered a (sent_frames b [reply] gB) [reply]).
Proof.
  intros A B a b wC wS wS' Hne Hch Hback.
  assert (HA : valid_keyPair A) by apply genKeyPair_valid.
  assert (HB : valid_keyPair B) by apply genKeyPair_valid.
  (* the initiator *)
  pose proof (run_sends A B a msgs HA HB eq_refl eq_refl
                (world_of (TrannyClient.constructor A (KeyPair.pk B) gA)) eq_refl)
    as [HC HlenC].
  rewrite client_constructed in HC, HlenC.
  cbn [world_of netConn _socket _socketDecoder on_data on_disconnected random
       Socket.closed Socket.written] in HC, HlenC.
  assert (EC : wC = world_of (run (map (call_send a) msgs)
                 (world_of (TrannyClient.constructor A (KeyPair.pk B) gA)))) by reflexivity.
  rewrite client_constructed in EC. cbn [world_of] in EC. rewrite HC in EC.
  cbn [world_of] in EC.
  assert (HwC : Socket.written (_socket (netConn wC))
                = Lpstream.encode (KeyPair.pk A) ++ framed (sent_frames a msgs gA)).
  { rewrite EC. reflexivity. }
  split; [exact HwC|].
  (* the responder *)
  assert (HF : Forall2 (fun f m => f <> [] /\ opened b f = Ok (Some m))
                 (sent_frames a msgs gA) msgs).
  { apply (sent_frames_open A B a b msgs); auto. }
  destruct (run_chunks_deliver chunks (TrannyServer.connection B Socket.fresh gB)
              Lpstream.decode (KeyPair.pk A :: sent_frames a msgs gA) eq_refl)
    as (He & Ht & Hw).
  { rewrite Hch, HwC.
    change (Lpstream.encode (KeyPair.pk A) ++ framed (sent_frames a msgs gA))
      with (framed (KeyPair.pk A :: sent_frames a msgs gA)).
    apply write_framed. constructor; [exact Hne|].
    exact (Forall2_nonempty _ _ _ HF). }
  rewrite (for_each_handshake_delivered B (KeyPair.pk A) (sent_frames a msgs gA) msgs)
    in He, Ht, Hw by (split; reflexivity) || exact HF.
  cbn [emitted_of thrown_of world_of] in He, Ht, Hw. specialize (Hw Ht).
  assert (ES : wS = with_decoder
                      (with_listeners (TrannyServer.connection B Socket.fresh gB)
                         [(false, comm_data b)] [comm_disconnected b])
                      Lpstream.decode) by exact Hw.
  split; [apply outcome_unit_eq; [exact Ht|reflexivity|exact He]|].
  split; [rewrite ES; split; reflexivity|].
  (* the reply *)
  pose proof (run_sends B A b [reply] HB HA eq_refl eq_refl wS) as [HS _].
  { rewrite ES. reflexivity. }
  assert (ES' : wS' = world_of (run [call_send b reply] wS)) by reflexivity.
  change (map (call_send b) [reply]) with [call_send b reply] in HS.
  rewrite HS in ES'. cbn [world_of] in ES'.
  assert (HwS' : Socket.written (_socket (netConn wS')) = framed (sent_frames b [reply] gB)).
  { rewrite ES', ES. reflexivity. }
  split; [exact HwS'|].
  apply run_chunks_delivered.
  - rewrite EC. reflexivity.
  - rewrite EC. reflexivity.
  - rewrite EC. reflexivity.
  - apply (sent_frames_open B A b a [reply]); auto.
  - rewrite Hback. exact HwS'.
Qed.

Lemma X3_session_witness :
  let E := Toy.externals in
  let msgs := [[x68; x69]; [x21]] in
  let reply := [x6f; x6b] in
  let A := fst (@genKeyPair E 1%N) in
  let B := fst (@genKeyPair E 2%N) in
  let a := mkCryptoComm (KeyPair.pk B) (KeyPair.pk B) (KeyPair.sk A) in
  let b := mkCryptoComm (KeyPair.pk A) (KeyPair.pk A) (KeyPair.sk B) in
  let wC := world_of (run (map (call_send a) msgs)
                        (world_of (@TrannyClient.constructor E A (KeyPair.pk B) 7%N))) in
  let chunks := [firstn 40 (Socket.written (_socket (netConn wC)));
                 skipn 40 (Socket.written (_socket (netConn wC)))] in
  let wS := world_of (run (map socket_data chunks)
                        (@TrannyServer.connection E B Socket.fresh 9%N)) in
  let wS' := world_of (run [call_send b reply] wS) in
  let back := [Socket.written (_socket (netConn wS'))] in
  Socket.written (_socket (netConn wC))
  = Lpstream.encode (KeyPair.pk A) ++ framed (@sent_frames E a msgs 7%N) /\
  run (map socket_data chunks) (@TrannyServer.connection E B Socket.fresh 9%N)
  = Returned tt wS
      (NetConn_data (KeyPair.pk A) :: TrannyServer_client b
         :: delivered b (@sent_frames E a msgs 7%N) msgs) /\
  channel_world b wS /\
  Socket.written (_socket (netConn wS')) = framed (@sent_frames E b [reply] 9%N) /\
  run (map socket_data back) wC
  = Returned tt wC (delivered a (@sent_frames E b [reply] 9%N) [reply]).
Proof.
  intros E msgs reply A B a b wC chunks wS wS' back.
  apply (@X3_session Toy.externals toy_ok 1%N 2%N 7%N 9%N msgs reply chunks back).
  - intros H. vm_compute in H. discriminate H.
  - vm_compute. reflexivity.
  - vm_compute. reflexivity.
Defined.

(** ** What a connection keeps through everything that happens to it *)

Lemma run_cons_emitted {E : Externals} (i : input) (inputs : list input) (w : World) :
  emitted_of (run (i :: inputs) w)
  = emitted_of (react i w)
    ++ match thrown_of (react i w) with
       | None => emitted_of (run inputs (world_of (react i w)))
       | Some _ => []
       end.
Proof.
  rewrite run_cons. unfold bind.
  destruct (react i w) as [[] w1 ev1|e w1 ev1]; cbn.
  - destruct (run inputs w1); reflexivity.
  - rewrite app_nil_r. reflexivity.
Qed.

Lemma run_cons_world {E : Externals} (i : input) (inputs : list input) (w : World) :
  world_of (run (i :: inputs) w)
  = match thrown_of (react i w) with
    | None => world_of (run inputs (world_of (react i w)))
    | Some _ => world_of (react i w)
    end.
Proof.
  rewrite run_cons. unfold bind.
  destruct (react i w) as [[] w1 ev1|e w1 ev1]; cbn; [|reflexivity].
  destruct (run inputs w1); reflexivity.
Qed.

Lemma for_each_emit_channel {E : Externals} (this : CryptoComm) (frames : list bytes)
    (w : World) :
  on_data (netConn w) = [(false, comm_data this)] ->
  exists r ev,
    for_each Emitter.emit_data frames w = ended r w ev /\ Forall (channel_event this) ev.
Proof.
  intros Hw. induction frames as [|f fs (r & ev & IH & Hev)].
  - exists None, []. split; [reflexivity|constructor].
  - cbn [for_each]. unfold bind. rewrite (emit_data_channel this) by assumption.
    destruct (opened this f) as [[m|]|e].
    + exists r, (NetConn_data f :: CryptoComm_message this (Buf m) :: ev).
      rewrite IH. split; [destruct r; reflexivity|].
      repeat constructor. exact Hev.
    + exists r, (NetConn_data f :: ev).
      rewrite IH. split; [destruct r; reflexivity|].
      repeat constructor. exact Hev.
    + exists (Some e), [NetConn_data f]. split; [reflexivity|].
      repeat constructor.
Qed.

Lemma react_keeps_listeners {E : Externals} (i : input) (w : World) :
  (forall chunk, i <> socket_data chunk) ->
  on_data (netConn (world_of (react i w))) = on_data (netConn w) /\
  on_disconnected (netConn (world_of (react i w))) = on_disconnected (netConn w) /\
  (i <> socket_close -> emitted_of (react i w) = []).
Proof.
  intros Hi. destruct i as [chunk| |e|comm data|comm].
  - destruct (Hi chunk). reflexivity.
  - unfold react, bind, get_netConn.
    destruct (Socket.closed (_socket (netConn w))).
    + cbn. split; [reflexivity|]. split; [reflexivity|].
      intros H. destruct H. reflexivity.
    + unfold bind, set_netConn. rewrite emit_disconnected_signals. cbn.
      split; [reflexivity|]. split; [reflexivity|].
      intros H. destruct H. reflexivity.
  - cbn. auto.
  - cbn [react]. rewrite send_unfold.
    destruct (nacl_box data _ (_theirPk comm) (_ourSk comm)); cbn; auto.
  - cbn. auto.
Qed.

Lemma react_channel {E : Externals} (this : CryptoComm) (i : input) (w : World) :
  channel_world this w ->
  channel_world this (world_of (react i w)) /\
  Forall (channel_event this) (emitted_of (react i w)).
Proof.
  intros [H1 H2].
  destruct i as [chunk| |e|comm data|comm].
  - unfold react, bind, get_netConn.
    destruct (Socket.destroyed (_socket (netConn w))).
    { cbn. split; [split; assumption|constructor]. }
    destruct (Lpstream.write (_socketDecoder (netConn w)) chunk) as [d fs].
    unfold bind, set_netConn. fold (with_decoder w d).
    destruct (for_each_emit_channel this fs (with_decoder w d) H1) as (r & ev & -> & Hev).
    destruct r; cbn; (split; [split; assumption|exact Hev]).
  - unfold react, bind, get_netConn.
    destruct (Socket.closed (_socket (netConn w))).
    { cbn. split; [split; assumption|constructor]. }
    unfold bind, set_netConn. rewrite emit_disconnected_signals. cbn.
    split; [split; assumption|].
    unfold closed_signals. cbn [netConn on_disconnected]. rewrite H2.
    repeat constructor.
  - cbn. split; [split; assumption|constructor].
  - destruct (react_keeps_listeners (call_send comm data) w) as (K1 & K2 & K3);
      [discriminate|].
    rewrite K3 by discriminate. split; [split; congruence|constructor].
  - cbn. split; [split; assumption|constructor].
Qed.

Lemma run_channel {E : Externals} (this : CryptoComm) (inputs : list input) :
  forall w, channel_world this w ->
    channel_world this (world_of (run inputs w)) /\
    Forall (channel_event this) (emitted_of (run inputs w)).
Proof.
  induction inputs as [|i inputs IH]; intros w Hw.
  - cbn. split; [exact Hw|constructor].
  - rewrite run_cons_world, run_cons_emitted.
    destruct (react_channel this i w Hw) as [H1 H2].
    destruct (thrown_of (react i w)).
    + rewrite app_nil_r. auto.
    + destruct (IH _ H1) as [H3 H4]. split; [exact H3|].
      apply Forall_app. auto.
Qed.

(** X4.  A channel stays what its constructor has made it, whatever
    happens to its connection: it remains the one listener of the
    connection, bound to the same two keys; every ['message'] emitted is its
    own and carries bytes, never [null]; and no ['client'] is emitted on a
    connection that has its channel. *)
Theorem X4_channel_kept {E : Externals} (this : CryptoComm) (w : World)
    (inputs : list input) :
  channel_world this w ->
  channel_world this (world_of (run inputs w)) /\
  (forall comm p, In (CryptoComm_message comm p) (emitted_of (run inputs w)) ->
     comm = this /\ exists m, p = Buf m) /\
  (forall comm, In (CryptoComm_disconnected comm) (emitted_of (run inputs w)) ->
     comm = this) /\
  (forall comm, ~ In (TrannyServer_client comm) (emitted_of (run inputs w))).
Proof.
  intros Hw. destruct (run_channel this inputs w Hw) as [H1 H2].
  rewrite Forall_forall in H2.
  split; [exact H1|]. split; [|split].
  - intros comm p Hin. specialize (H2 _ Hin). destruct p as [|m|m]; cbn in H2.
    + destruct H2.
    + split; [exact H2|]. exists m. reflexivity.
    + destruct H2.
  - intros comm Hin. exact (H2 _ Hin).
  - intros comm Hin. exact (H2 _ Hin).
Qed.

Lemma X4_channel_kept_witness :
  let inputs := [socket_data (Lpstream.encode Toy.forged); call_send Toy.b [x68];
                 socket_close; call_destroy Toy.b] in
  channel_world Toy.b (world_of (run inputs Toy.wB)) /\
  (forall comm p, In (CryptoComm_message comm p) (emitted_of (run inputs Toy.wB)) ->
     comm = Toy.b /\ exists m, p = Buf m) /\
  (forall comm, In (CryptoComm_disconnected comm) (emitted_of (run inputs Toy.wB)) ->
     comm = Toy.b) /\
  (forall comm, ~ In (TrannyServer_client comm) (emitted_of (run inputs Toy.wB))).
Proof.
  intros inputs.
  apply (@X4_channel_kept Toy.externals Toy.b Toy.wB inputs).
  split; reflexivity.
Defined.

Lemma channel_event_no_client (this : CryptoComm) (evs : list event) :
  Forall (channel_event this) evs -> filter is_client evs = [].
Proof.
  induction 1 as [|ev evs H _ IH]; [reflexivity|].
  cbn [filter]. destruct ev; cbn in *; try exact IH. destruct H.
Qed.

Lemma disconnected_no_client (evs : list event) :
  Forall (fun ev => ev = NetConn_disconnected) evs -> filter is_client evs = [].
Proof.
  induction 1 as [|ev evs H _ IH]; [reflexivity|].
  subst ev. exact IH.
Qed.

Lemma react_accepted {E : Externals} (keyPair : KeyPair.t) (i : input) (w : World) :
  accepted_world keyPair w ->
  (accepted_world keyPair (world_of (react i w)) /\
   Forall (fun ev => ev = NetConn_disconnected) (emitted_of (react i w))) \/
  (exists data post,
     emitted_of (react i w)
     = [NetConn_data data]
       ++ TrannyServer_client (mkCryptoComm data data (KeyPair.sk keyPair)) :: post /\
     Forall (channel_event (mkCryptoComm data data (KeyPair.sk keyPair))) post /\
     channel_world (mkCryptoComm data data (KeyPair.sk keyPair)) (world_of (react i w))).
Proof.
  intros Ha. pose proof Ha as [H1 H2].
  destruct i as [chunk| |e|comm data|comm].
  - unfold react, bind, get_netConn.
    destruct (Socket.destroyed (_socket (netConn w))).
    { left. cbn. split; [exact Ha|constructor]. }
    destruct (Lpstream.write (_socketDecoder (netConn w)) chunk) as [d [|f fs]].
    { left. cbn. split; [exact Ha|constructor]. }
    right. exists f.
    unfold bind, set_netConn. fold (with_decoder w d).
    cbn [for_each]. unfold bind.
    rewrite (emit_data_accepted keyPair f (with_decoder w d)) by exact Ha.
    match goal with |- context [for_each Emitter.emit_data fs ?w1] =>
      destruct (for_each_emit_channel (mkCryptoComm f f (KeyPair.sk keyPair)) fs w1 eq_refl)
        as (r & ev & -> & Hev)
    end.
    exists ev. destruct r; cbn; (split; [reflexivity|]); (split; [exact Hev|]);
      split; reflexivity.
  - left. unfold react, bind, get_netConn.
    destruct (Socket.closed (_socket (netConn w))).
    { cbn. split; [exact Ha|constructor]. }
    unfold bind, set_netConn. rewrite emit_disconnected_signals. cbn.
    split; [exact Ha|].
    unfold closed_signals. cbn [netConn on_disconnected]. rewrite H2.
    repeat constructor.
  - left. cbn. split; [exact Ha|constructor].
  - left. destruct (react_keeps_listeners (call_send comm data) w) as (K1 & K2 & K3);
      [discriminate|].
    rewrite K3 by discriminate. split; [split; congruence|constructor].
  - left. cbn. split; [exact Ha|constructor].
Qed.

(** X5.  A connection the server has accepted yields at most one channel.
    Until its first frame it emits nothing but the ['disconnected'] of its
    socket's ['close']: no ['data'], no ['client'], no ['message'].  The
    first ['data'] it emits, which is its first frame, is followed at once
    by the one ['client'], whose channel has this frame for its public key;
    and after it nothing is emitted but by the connection and that
    channel. *)
Theorem X5_one_client_per_connection {E : Externals} (keyPair : KeyPair.t)
    (inputs : list input) :
  forall w,
    accepted_world keyPair w ->
    (List.length (filter is_client (emitted_of (run inputs w))) <= 1)%nat /\
    (Forall (fun ev => ev = NetConn_disconnected) (emitted_of (run inputs w)) \/
     exists data pre post,
       emitted_of (run inputs w)
       = pre ++ [NetConn_data data]
         ++ TrannyServer_client (mkCryptoComm data data (KeyPair.sk keyPair)) :: post /\
       Forall (fun ev => ev = NetConn_disconnected) pre /\
       Forall (channel_event (mkCryptoComm data data (KeyPair.sk keyPair))) post).
Proof.
  induction inputs as [|i inputs IH]; intros w Ha.
  - cbn. split; [lia|]. left. constructor.
  - rewrite run_cons_emitted.
    destruct (react_accepted keyPair i w Ha) as [[Ha1 Hev]|(data & post & Hev & Hpost & Hc)].
    + destruct (thrown_of (react i w)).
      * rewrite app_nil_r. rewrite (disconnected_no_client _ Hev).
        split; [cbn; lia|]. left. exact Hev.
      * destruct (IH _ Ha1) as [Hn Hd]. split.
        { rewrite filter_app, (disconnected_no_client _ Hev). exact Hn. }
        destruct Hd as [Hd|(data & pre & post & Hd & Hpre & Hpost)].
        { left. apply Forall_app. auto. }
        right. exists data, (emitted_of (react i w) ++ pre), post.
        rewrite Hd. split; [rewrite <- !app_assoc; reflexivity|].
        split; [apply Forall_app; auto|exact Hpost].
    + set (comm := mkCryptoComm data data (KeyPair.sk keyPair)) in *.
      assert (Hrest : Forall (channel_event comm)
                        match thrown_of (react i w) with
                        | None => emitted_of (run inputs (world_of (react i w)))
                        | Some _ => []
                        end).
      { destruct (thrown_of (react i w)); [constructor|].
        apply (run_channel comm inputs _ Hc). }
      rewrite Hev. split.
      * rewrite !filter_app. cbn [filter is_client].
        rewrite (channel_event_no_client comm _ Hpost).
        rewrite (channel_event_no_client comm _ Hrest). cbn. lia.
      * right. exists data, [], (post ++ match thrown_of (react i w) with
                                         | None => emitted_of (run inputs (world_of (react i w)))
                                         | Some _ => []
                                         end).
        split; [cbn [app]; rewrite <- ?app_assoc; reflexivity|].
        split; [constructor|]. apply Forall_app. auto.
Qed.

Lemma X5_one_client_per_connection_witness :
  let w := @TrannyServer.connection Toy.externals Toy.B Socket.fresh 9%N in
  let inputs := [socket_data [x02; x41]; socket_data [x42; x02; x7b; x7d; x01; x43]] in
  (List.length (filter is_client (emitted_of (run inputs w))) <= 1)%nat /\
  (Forall (fun ev => ev = NetConn_disconnected) (emitted_of (run inputs w)) \/
   exists data pre post,
     emitted_of (run inputs w)
     = pre ++ [NetConn_data data]
       ++ TrannyServer_client (mkCryptoComm data data (KeyPair.sk Toy.B)) :: post /\
     Forall (fun ev => ev = NetConn_disconnected) pre /\
     Forall (channel_event (mkCryptoComm data data (KeyPair.sk Toy.B))) post).
Proof.
  intros w inputs.
  apply (@X5_one_client_per_connection Toy.externals Toy.B inputs w).
  split; reflexivity.
Defined.

Lemma react_writes_nothing {E : Externals} (i : input) (w : World) :
  is_send i = false ->
  Socket.written (_socket (netConn (world_of (react i w))))
  = Socket.written (_socket (netConn w)) /\
  random (world_of (react i w)) = random w.
Proof.
  intros Hi. destruct i as [chunk| |e|comm data|comm]; try discriminate Hi.
  - unfold react, bind, get_netConn.
    destruct (Socket.destroyed (_socket (netConn w))); [split; reflexivity|].
    destruct (Lpstream.write (_socketDecoder (netConn w)) chunk) as [d fs].
    unfold bind, set_netConn. fold (with_decoder w d).
    destruct (for_each_emit_data_keeps fs (with_decoder w d)) as (H1 & _ & H3).
    destruct (for_each Emitter.emit_data fs (with_decoder w d));
      cbn [world_of] in *; rewrite H1, H3; split; reflexivity.
  - unfold react, bind, get_netConn.
    destruct (Socket.closed (_socket (netConn w))); [split; reflexivity|].
    unfold bind, set_netConn. rewrite emit_disconnected_signals. split; reflexivity.
  - split; reflexivity.
  - split; reflexivity.
Qed.

(** X7.  The module writes to the socket in [send] alone: whatever a
    connection receives, and when it is closed or destroyed, nothing is
    written in return, no acknowledgement and, on the responder's side, no
    key, and no byte is drawn from the random source. *)
Theorem X7_receiving_writes_nothing {E : Externals} (inputs : list input) :
  forall w,
    Forall (fun i => is_send i = false) inputs ->
    Socket.written (_socket (netConn (world_of (run inputs w))))
    = Socket.written (_socket (netConn w)) /\
    random (world_of (run inputs w)) = random w.
Proof.
  induction inputs as [|i inputs IH]; intros w H.
  - split; reflexivity.
  - inversion H as [|? ? Hi Hrest]; subst.
    rewrite run_cons_world.
    destruct (react_writes_nothing i w Hi) as [H1 H2].
    destruct (thrown_of (react i w)); [split; assumption|].
    destruct (IH (world_of (react i w)) Hrest) as [H3 H4].
    split; congruence.
Qed.

Lemma X7_receiving_writes_nothing_witness :
  let w := @TrannyServer.connection Toy.externals Toy.B Socket.fresh 9%N in
  let inputs := [socket_data (Lpstream.encode (KeyPair.pk Toy.A));
                 socket_data (Lpstream.encode Toy.forged); socket_close] in
  Socket.written (_socket (netConn (world_of (run inputs w))))
  = Socket.written (_socket (netConn w)) /\
  random (world_of (run inputs w)) = random w.
Proof.
  intros w inputs.
  apply (@X7_receiving_writes_nothing Toy.externals inputs w).
  repeat constructor.
Defined.

(** ** The two listings over a sequence of frames *)

(** X8.  Over any sequence of frames handled one after the other, the
    receive handlers of the two listings throw at the same frame, with the
    same error, and leave the world as it was.  The second listing emits
    no [Buffer]: its ['message'] events carry [null] or a [Uint8Array].
    What the first listing emits is what the second emits with the events
    of [null] left out and every [Uint8Array] made a [Buffer] of the same
    bytes.  Where nothing throws, the second listing emits one ['message']
    a frame. *)
Theorem X8_listings_over_frames {E : Externals} (this : CryptoComm) (frames : list bytes)
    (w : World) :
  thrown_of (for_each (CryptoComm._onData this) frames w)
  = thrown_of (for_each (Listing2._onData this) frames w) /\
  world_of (for_each (CryptoComm._onData this) frames w) = w /\
  world_of (for_each (Listing2._onData this) frames w) = w /\
  Forall (fun ev => ev = CryptoComm_message this Null \/
                    exists m, ev = CryptoComm_message this (Uint8Array m))
    (emitted_of (for_each (Listing2._onData this) frames w)) /\
  emitted_of (for_each (CryptoComm._onData this) frames w)
  = flat_map as_listing1 (emitted_of (for_each (Listing2._onData this) frames w)) /\
  (thrown_of (for_each (Listing2._onData this) frames w) = None ->
   emitted_of (for_each (Listing2._onData this) frames w)
   = map (fun f => CryptoComm_message this
                     match opened this f with
                     | Ok (Some m) => Uint8Array m
                     | _ => Null
                     end) frames).
Proof.
  induction frames as [|f fs (IH1 & IH2 & IH3 & IH4 & IH5 & IH6)].
  - cbn. repeat split; auto.
  - cbn [for_each map]. unfold bind.
    rewrite onData_opened, onData2_opened.
    destruct (opened this f) as [[m|]|e] eqn:Ho.
    + destruct (for_each (CryptoComm._onData this) fs w) as [[] w1 ev1|e1 w1 ev1];
        destruct (for_each (Listing2._onData this) fs w) as [[] w2 ev2|e2 w2 ev2];
        cbn in *; try discriminate; repeat split; try congruence;
        try (constructor; [right; exists m; reflexivity|exact IH4]);
        intros H; try discriminate H; rewrite IH6 by exact H; reflexivity.
    + destruct (for_each (CryptoComm._onData this) fs w) as [[] w1 ev1|e1 w1 ev1];
        destruct (for_each (Listing2._onData this) fs w) as [[] w2 ev2|e2 w2 ev2];
        cbn in *; try discriminate; repeat split; try congruence;
        try (constructor; [left; reflexivity|exact IH4]);
        intros H; try discriminate H; rewrite IH6 by exact H; reflexivity.
    + cbn. repeat split; [constructor|discriminate].
Qed.

(** ** Frames that come again, frames that never end *)

(** X9.  The receive handler keeps nothing from one frame to the next: a
    frame that opens is emitted every time it arrives.  A frame received
    [n] times gives [n] ['message'] events with the same bytes. *)
Theorem X9_repeated_frame_emitted_again {E : Externals} (this : CryptoComm)
    (f m : bytes) (n : nat) (w : World) (chunks : list bytes) :
  channel_world this w -> live w -> idle w ->
  f <> [] -> opened this f = Ok (Some m) ->
  List.concat chunks = framed (repeat f n) ->
  run (map socket_data chunks) w
  = Returned tt w (delivered this (repeat f n) (repeat m n)) /\
  filter is_message (emitted_of (run (map socket_data chunks) w))
  = repeat (CryptoComm_message this (Buf m)) n.
Proof.
  intros [Hw _] Hl Hi Hne Ho Hch.
  assert (HF : Forall2 (fun f0 m0 => f0 <> [] /\ opened this f0 = Ok (Some m0))
                 (repeat f n) (repeat m n)).
  { clear Hch. induction n as [|n IH]; cbn [repeat].
    - constructor.
    - constructor; [split; assumption|exact IH]. }
  assert (Hr : run (map socket_data chunks) w
               = Returned tt w (delivered this (repeat f n) (repeat m n))).
  { apply run_chunks_delivered; assumption. }
  split; [exact Hr|]. rewrite Hr. cbn [emitted_of].
  rewrite messages_of_delivered by (rewrite !repeat_length; reflexivity).
  apply map_repeat.
Qed.

Lemma X9_repeated_frame_emitted_again_witness :
  let f := Buffer_from_string
             (Json.stringify
                (CryptoComm.envelope
                   (Toy.xor_bytes (KeyPair.pk Toy.A) (KeyPair.sk Toy.B)
                    ++ repeat x07 nacl_box_nonceLength ++ [x68; x69])
                   (repeat x07 nacl_box_nonceLength))) in
  let chunks := [framed (repeat f 3)] in
  run (map socket_data chunks) Toy.wB
  = Returned tt Toy.wB (delivered Toy.b (repeat f 3) (repeat [x68; x69] 3)) /\
  filter is_message (emitted_of (run (map socket_data chunks) Toy.wB))
  = repeat (CryptoComm_message Toy.b (Buf [x68; x69])) 3.
Proof.
  intros f chunks.
  apply (@X9_repeated_frame_emitted_again Toy.externals Toy.b f [x68; x69] 3 Toy.wB chunks).
  - split; reflexivity.
  - reflexivity.
  - reflexivity.
  - intros H. vm_compute in H. discriminate H.
  - vm_compute. reflexivity.
  - vm_compute. reflexivity.
Defined.

Lemma write_varint_cut (fuel : nat) :
  forall (n : N) (p v1 v2 : bytes),
    (n < 2 ^ N.of_nat fuel)%N ->
    Lpstream.varint_go fuel n = v1 ++ v2 -> v2 <> [] ->
    Lpstream.write (Lpstream.mkDecoder p 0 []) v1 = (Lpstream.mkDecoder (p ++ v1) 0 [], []).
Proof.
  assert (Hone : forall b p v1 v2, [b] = v1 ++ v2 -> v2 <> [] ->
            Lpstream.write (Lpstream.mkDecoder p 0 []) v1
            = (Lpstream.mkDecoder (p ++ v1) 0 [], [])).
  { intros b p [|x v1] v2 H Hv.
    - rewrite app_nil_r. reflexivity.
    - injection H as _ H. symmetry in H. apply app_eq_nil in H as [_ ->]. congruence. }
  induction fuel as [|fuel IH]; intros n p v1 v2 Hn Hv Hne.
  - cbn [Lpstream.varint_go] in Hv. eapply Hone; eassumption.
  - cbn [Lpstream.varint_go] in Hv. destruct (N.ltb_spec n 128) as [L|L].
    + eapply Hone; eassumption.
    + destruct v1 as [|x v1].
      * rewrite app_nil_r. reflexivity.
      * injection Hv as <- Hv. rewrite write_cons. unfold Lpstream.step.
        cbn [Lpstream._missing Lpstream._prefix N.eqb].
        rewrite to_N_byte_of_N by (zify; Z.to_euclidean_division_equations; lia).
        destruct (N.ltb_spec (n mod 128 + 128) 128);
          [zify; Z.to_euclidean_division_equations; lia|].
        rewrite (IH (n / 128)%N _ v1 v2).
        -- rewrite <- app_assoc. reflexivity.
        -- rewrite Nat2N.inj_succ, N.pow_succ_r' in Hn.
           zify; Z.to_euclidean_division_equations; lia.
        -- exact Hv.
        -- exact Hne.
Qed.

Lemma write_payload_cut (f1 f2 : bytes) :
  f2 <> [] ->
  forall acc,
    Lpstream.write (Lpstream.mkDecoder [] (N.of_nat (List.length (f1 ++ f2))) acc) f1
    = (Lpstream.mkDecoder [] (N.of_nat (List.length f2)) (acc ++ f1), []).
Proof.
  intros Hne. induction f1 as [|b f1 IH]; intros acc.
  - rewrite app_nil_r. reflexivity.
  - rewrite write_cons. unfold Lpstream.step.
    cbn [Lpstream._missing Lpstream._message].
    assert (Hlen : (2 <= List.length ((b :: f1) ++ f2))%nat).
    { destruct f2; [congruence|]. cbn [app List.length]. rewrite length_app. cbn. lia. }
    replace (N.of_nat (List.length ((b :: f1) ++ f2)) =? 0)%N with false
      by (symmetry; apply N.eqb_neq; lia).
    replace (N.of_nat (List.length ((b :: f1) ++ f2)) =? 1)%N with false
      by (symmetry; apply N.eqb_neq; lia).
    replace (N.of_nat (List.length ((b :: f1) ++ f2)) - 1)%N
      with (N.of_nat (List.length (f1 ++ f2))) by (cbn [app List.length]; lia).
    rewrite IH, <- app_assoc. reflexivity.
Qed.

(** The bytes of a frame short of its last ones complete no frame. *)
Lemma write_cut_frame (f p q : bytes) :
  Lpstream.encode f = p ++ q -> q <> [] ->
  exists d, Lpstream.write Lpstream.decode p = (d, []).
Proof.
  unfold Lpstream.encode. intros H Hq.
  apply app_eq_app in H as [l [[H1 H2]|[H1 H2]]].
  - (* the cut falls within the prefix *)
    destruct l as [|x l].
    + rewrite app_nil_r in H1. subst p. eexists. apply write_varint.
    + eexists. unfold Lpstream.decode, Lpstream.varint_encode in *.
      eapply (write_varint_cut _ _ [] p (x :: l));
        [rewrite N2Nat.id; apply N.size_gt|exact H1|discriminate].
  - (* the cut falls within the payload *)
    subst p f. eexists.
    rewrite <- (app_nil_r (Lpstream.varint_encode _ ++ l)), <- app_assoc.
    unfold Lpstream.decode, Lpstream.varint_encode.
    rewrite write_prefix by (rewrite N2Nat.id; apply N.size_gt).
    cbn [app]. fold (Lpstream.varint_encode (N.of_nat (List.length (l ++ q)))).
    rewrite varint_decode_encode, app_nil_r.
    apply write_payload_cut, Hq.
Qed.

(** X10.  A frame cut short by the end of the connection is dropped
    without a word.  When the socket closes before the last bytes of a
    frame of a length a [Buffer] can have have come, no ['data'] has been
    emitted for the frame and nothing has been thrown; the ['close'] makes
    the connection emit its ['disconnected'], and nothing else. *)
Theorem X10_cut_frame_dropped {E : Externals} (f p q : bytes) (w : World) :
  live w -> idle w -> Socket.closed (_socket (netConn w)) = false ->
  (N.of_nat (List.length f) <= Lpstream.max_length)%N ->
  Lpstream.encode f = p ++ q -> q <> [] ->
  (exists d, react (socket_data p) w = Returned tt (with_decoder w d) []) /\
  thrown_of (run [socket_data p; socket_close] w) = None /\
  emitted_of (run [socket_data p; socket_close] w) = closed_signals w.
Proof.
  intros Hl Hi Hc _ Henc Hq.
  destruct (write_cut_frame f p q Henc Hq) as [d Hd].
  assert (H1 : react (socket_data p) w = Returned tt (with_decoder w d) []).
  { rewrite (react_socket_data p w d []); [reflexivity|exact Hl|].
    unfold idle in Hi. rewrite Hi. exact Hd. }
  assert (H2 : react socket_close (with_decoder w d)
               = Returned tt
                   (with_socket (with_decoder w d) (Socket.close (_socket (netConn w))))
                   (closed_signals w)).
  { apply (react_socket_close (with_decoder w d)). exact Hc. }
  split; [exists d; exact H1|]. split.
  - rewrite run_cons. unfold bind. rewrite H1.
    rewrite run_cons. unfold bind. rewrite H2. reflexivity.
  - rewrite run_cons_emitted, H1. cbn [emitted_of thrown_of world_of app].
    rewrite run_cons_emitted, H2. cbn. rewrite app_nil_r. reflexivity.
Qed.

Lemma X10_cut_frame_dropped_witness :
  let p := firstn 30 (Lpstream.encode Toy.forged) in
  (exists d, react (socket_data p) Toy.wB = Returned tt (with_decoder Toy.wB d) []) /\
  thrown_of (run [socket_data p; socket_close] Toy.wB) = None /\
  emitted_of (run [socket_data p; socket_close] Toy.wB) = closed_signals Toy.wB.
Proof.
  intros p.
  apply (@X10_cut_frame_dropped Toy.externals Toy.forged p
           (skipn 30 (Lpstream.encode Toy.forged)) Toy.wB).
  - reflexivity.
  - reflexivity.
  - reflexivity.
  - vm_compute. discriminate.
  - symmetry. apply firstn_skipn.
  - intros H. vm_compute in H. discriminate H.
Defined.
